(** * Shot, reload and gate resolution of the duck hunting commands

    A shallow embedding of [cogs/ducks_hunting_commands.py]: the chance trial
    [compute_luck], the [bang] command with its weapon condition gate, jam
    roll, accuracy roll and friendly-fire resolution, and the [reload],
    [hug] and [revive] commands.  Player rows are records, the two JSON
    mappings of a row are finite maps from strings to integers, the database
    is a finite map from row keys to rows, and the random generator is an
    explicit tape.  The private messages support cog follows, as a state,
    exception and event monad over its caches. *)

From Stdlib Require Import ZArith QArith Qround Lia Lqa Bool List.
From stdpp Require Import base gmap strings list fin_maps.

Local Open Scope Z_scope.

(** ** The random source

    [random.randint(a, b)] is read off an entropy tape: the draw at the
    cursor is folded into the closed range [a..b] and the cursor advances. *)

Record Rng := mkRng { entropy : nat -> Z; cursor : nat }.

Definition advance (g : Rng) : Rng :=
  {| entropy := entropy g; cursor := S (cursor g) |}.

Definition randint (a b : Z) (g : Rng) : Z * Rng :=
  (a + entropy g (cursor g) `mod` (b - a + 1), advance g).

(** [compute_luck(luck_pct)]: [current = random.randint(1, 100)], then
    [current <= luck_pct].  The percentage is an integer at most call sites
    and a Python float after the mirror halving; both are exact rationals at
    the magnitude of a percentage, so the argument is a [Q]. *)
Definition compute_luck (luck_pct : Q) (g : Rng) : bool * Rng :=
  let (current, g') := randint 1 100 g in
  (Qle_bool (inject_Z current) luck_pct, g').

(** ** Player rows *)

(** Modelled from the spec: the [Player] model of [utils.models] is not among
    the sources.  Its fields are the ones the commands read and write; the
    mappings [active_powerups], [shooting_stats] and [hugged] are indexed and
    updated in place on keys the commands never initialise, so a missing key
    reads as 0. *)
Record Player := mkPlayer {
  id : Z;
  experience : Z;
  bullets : Z;
  magazines : Z;
  weapon_confiscated : bool;
  weapon_jammed : bool;
  weapon_sabotaged_by : option Z;
  active_powerups : gmap string Z;
  shooting_stats : gmap string Z;
  hugged : gmap string Z
}.

(** [m[k]] *)
Definition item (m : gmap string Z) (k : string) : Z := default 0 (m !! k).

(** [m[k] += d] *)
Definition item_add (k : string) (d : Z) (m : gmap string Z) : gmap string Z :=
  <[k := item m k + d]> m.

Definition powerup (p : Player) (k : string) : Z := item (active_powerups p) k.
Definition stat (p : Player) (k : string) : Z := item (shooting_stats p) k.

Definition set_experience (x : Z) (p : Player) : Player :=
  mkPlayer (id p) x (bullets p) (magazines p) (weapon_confiscated p)
    (weapon_jammed p) (weapon_sabotaged_by p) (active_powerups p)
    (shooting_stats p) (hugged p).

Definition set_bullets (x : Z) (p : Player) : Player :=
  mkPlayer (id p) (experience p) x (magazines p) (weapon_confiscated p)
    (weapon_jammed p) (weapon_sabotaged_by p) (active_powerups p)
    (shooting_stats p) (hugged p).

Definition set_magazines (x : Z) (p : Player) : Player :=
  mkPlayer (id p) (experience p) (bullets p) x (weapon_confiscated p)
    (weapon_jammed p) (weapon_sabotaged_by p) (active_powerups p)
    (shooting_stats p) (hugged p).

Definition set_weapon_confiscated (x : bool) (p : Player) : Player :=
  mkPlayer (id p) (experience p) (bullets p) (magazines p) x
    (weapon_jammed p) (weapon_sabotaged_by p) (active_powerups p)
    (shooting_stats p) (hugged p).

Definition set_weapon_jammed (x : bool) (p : Player) : Player :=
  mkPlayer (id p) (experience p) (bullets p) (magazines p)
    (weapon_confiscated p) x (weapon_sabotaged_by p) (active_powerups p)
    (shooting_stats p) (hugged p).

Definition set_weapon_sabotaged_by (x : option Z) (p : Player) : Player :=
  mkPlayer (id p) (experience p) (bullets p) (magazines p)
    (weapon_confiscated p) (weapon_jammed p) x (active_powerups p)
    (shooting_stats p) (hugged p).

Definition set_active_powerups (x : gmap string Z) (p : Player) : Player :=
  mkPlayer (id p) (experience p) (bullets p) (magazines p)
    (weapon_confiscated p) (weapon_jammed p) (weapon_sabotaged_by p) x
    (shooting_stats p) (hugged p).

Definition set_shooting_stats (x : gmap string Z) (p : Player) : Player :=
  mkPlayer (id p) (experience p) (bullets p) (magazines p)
    (weapon_confiscated p) (weapon_jammed p) (weapon_sabotaged_by p)
    (active_powerups p) x (hugged p).

(** [p.experience += d], [p.bullets += d], [p.magazines += d] *)
Definition experience_add (d : Z) (p : Player) : Player :=
  set_experience (experience p + d) p.
Definition bullets_add (d : Z) (p : Player) : Player :=
  set_bullets (bullets p + d) p.
Definition magazines_add (d : Z) (p : Player) : Player :=
  set_magazines (magazines p + d) p.

(** [p.active_powerups[k] += d] and [p.shooting_stats[k] += d] *)
Definition powerup_add (k : string) (d : Z) (p : Player) : Player :=
  set_active_powerups (item_add k d (active_powerups p)) p.
Definition stat_add (k : string) (d : Z) (p : Player) : Player :=
  set_shooting_stats (item_add k d (shooting_stats p)) p.

(** [p.active_powerups[k] = v], [p.shooting_stats[k] = v] and
    [p.hugged[k] += d] *)
Definition set_hugged (x : gmap string Z) (p : Player) : Player :=
  mkPlayer (id p) (experience p) (bullets p) (magazines p)
    (weapon_confiscated p) (weapon_jammed p) (weapon_sabotaged_by p)
    (active_powerups p) (shooting_stats p) x.
Definition powerup_set (k : string) (v : Z) (p : Player) : Player :=
  set_active_powerups (<[k := v]> (active_powerups p)) p.
Definition stat_set (k : string) (v : Z) (p : Player) : Player :=
  set_shooting_stats (<[k := v]> (shooting_stats p)) p.
Definition hugged_add (k : string) (d : Z) (p : Player) : Player :=
  set_hugged (item_add k d (hugged p)) p.

(** ** The database

    Rows are keyed by the member the row belongs to (one channel is
    modelled, so a member has one row).  [save] writes an in-memory row back
    under its [id]; a row loaded twice gives two independent copies, which is
    why [bang] rebinds [db_target] to [db_hunter] when their ids agree. *)

Definition save (p : Player) (db : gmap Z Player) : gmap Z Player :=
  <[id p := p]> db.

Definition store_wf (db : gmap Z Player) : Prop :=
  map_Forall (fun k p => id p = k) db.

(** The progression snapshot: [level_info['bullets']] and so on. *)
Record LevelInfo := mkLevelInfo {
  lv_bullets : Z;
  lv_magazines : Z;
  lv_reliability : Z;
  lv_accuracy : Z
}.

(** Truncation of a rational towards zero: Python's [int(x)]. *)
Definition int_of (q : Q) : Z := Z.quot (Qnum q) (Z.pos (Qden q)).

(** ** Outcomes: the reply each terminal branch sends (the victim is kept,
    the wording and the other text parameters are not) *)

Inductive Outcome :=
  | NotReady
  | ShooterDead
  | WeaponWet
  | WeaponConfiscated
  | Sabotaged
  | WeaponJammed
  | EmptyMagazine
  | JamRollFailed
  | HomingSelfKill
  | Suicide
  | Murder (victim : Z)
  | BystanderKill (victim : Z)
  | MissedTree
  | ShotDuck
  | DetectorStopped
  | NoDuck.

#[global] Instance Outcome_eq_dec : EqDecision Outcome.
Proof. solve_decision. Defined.

(** What a command invocation receives from its context. *)
Record Ctx := mkCtx {
  author : Z;                (* ctx.author *)
  is_ready : bool;           (* self.bot.is_ready() *)
  now : Z;                   (* int(time.time()) *)
  kill_on_miss_chance : Z;   (* db_channel.kill_on_miss_chance *)
  random_player : Z;         (* the row get_random_player(db_channel) picks *)
  next_duck : bool           (* ctx.target_next_duck() found a duck *)
}.

(** What a command leaves behind: the reply, the in-memory hunter row (if it
    was loaded), the database and the random source. *)
Record Result := mkResult {
  outcome : Outcome;
  hunter : option Player;
  store : gmap Z Player;
  rng : Rng
}.

(** ** The commands *)

Module Hunting.

Section Commands.

(** [utils.levels.get_level_info], [Player.is_powerup_active] and the row
    [utils.models.get_player] creates for a member without one are not
    among the sources: the commands are modelled over any of them. *)
Variable get_level_info : Z -> LevelInfo.
Variable is_powerup_active : Player -> string -> bool.
Variable new_player : Z -> Player.

(** Modelled from the spec: [get_player] of [utils.models] is not among the
    sources ("loadPlayer(playerId, channelId) -> PlayerState", "created
    lazily on first interaction").  Each call returns a copy of its own of
    the member's row, which is why [bang] compares ids at line 165.  What
    [giveback=True] does to a row while loading it is not modelled: the
    commands start from the row as loaded. *)
Definition get_player (db : gmap Z Player) (member : Z) : Player :=
  default (new_player member) (db !! member).

(** Modelled from the spec: [get_random_player] of [utils.models] is not
    among the sources (a miss may kill a "random bystander").  It is given
    the channel only and loads one of its rows, like [get_player] a copy of
    its own; which row is the context's choice. *)
Definition get_random_player (ctx : Ctx) (db : gmap Z Player) : Player :=
  get_player db (random_player ctx).

(** *** [bang], lines 44-103: the weapon condition gate.
    [Some] is a blocked attempt: its reply and the mutated row, which the
    caller saves. *)
Definition weapon_condition_gate (now : Z) (db_hunter : Player)
  : option (Outcome * Player) :=
  if 0 <? powerup db_hunter "dead" then
    Some (ShooterDead, stat_add "shots_when_dead" 1 db_hunter)
  else if now <? powerup db_hunter "wet" then
    Some (WeaponWet, stat_add "shots_when_wet" 1 db_hunter)
  else if weapon_confiscated db_hunter then
    Some (WeaponConfiscated, stat_add "shots_when_confiscated" 1 db_hunter)
  else
    match weapon_sabotaged_by db_hunter with
    | Some _ =>
        Some (Sabotaged,
              stat_add "shots_when_sabotaged" 1
                (set_weapon_jammed true
                   (set_weapon_sabotaged_by None db_hunter)))
    | None =>
        if weapon_jammed db_hunter then
          Some (WeaponJammed, stat_add "shots_when_jammed" 1 db_hunter)
        else if bullets db_hunter <=? 0 then
          Some (EmptyMagazine,
                stat_add "shots_with_empty_magazine" 1 db_hunter)
        else None
    end.

(** *** [bang], lines 105-112: the jam roll.  [or] and [and] evaluate their
    right operand, and so draw again, only when the left one does not
    decide. *)
Definition jam_roll (level_info : LevelInfo) (db_hunter : Player) (g : Rng)
  : bool * Player * Rng :=
  let (lucky, g1) := compute_luck (inject_Z (lv_reliability level_info)) g in
  if is_powerup_active db_hunter "grease" then
    if lucky then (true, db_hunter, g1)
    else
      let (again, g2) :=
        compute_luck (inject_Z (lv_reliability level_info)) g1 in
      (again, db_hunter, g2)
  else if 0 <? powerup db_hunter "sand" then
    let db_hunter := powerup_add "sand" (-1) db_hunter in
    if lucky then
      let (again, g2) :=
        compute_luck (inject_Z (lv_reliability level_info)) g1 in
      (again, db_hunter, g2)
    else (false, db_hunter, g1)
  else (lucky, db_hunter, g1).

(** *** [bang], lines 121-122. *)
Definition consume_bullet (db_hunter : Player) : Player :=
  stat_add "bullets_used" 1 (bullets_add (-1) db_hunter).

(** *** [bang], lines 125-133: the accuracy after mirror and sight.
    [accuracy /= 2] makes a float of it and [int((100 - accuracy) / 3)]
    truncates one; halves and thirds of percentages are computed exactly
    here, as they are there. *)
Definition aim (level_info : LevelInfo) (db_hunter : Player) : Q * Player :=
  let accuracy := inject_Z (lv_accuracy level_info) in
  let '(accuracy, db_hunter) :=
    if 0 <? powerup db_hunter "mirror" then
      ((accuracy / 2)%Q, powerup_add "mirror" (-1) db_hunter)
    else (accuracy, db_hunter) in
  let '(accuracy, db_hunter) :=
    if 0 <? powerup db_hunter "sight" then
      ((accuracy + inject_Z (int_of ((100 - accuracy) / 3)))%Q,
       powerup_add "sight" (-1) db_hunter)
    else (accuracy, db_hunter) in
  (accuracy, db_hunter).

(** *** [bang], line 135: the accuracy roll; returns [missed]. *)
Definition accuracy_roll (level_info : LevelInfo) (db_hunter : Player)
  (g : Rng) : bool * Player * Rng :=
  let (accuracy, db_hunter) := aim level_info db_hunter in
  let (hit, g') := compute_luck accuracy g in
  (negb hit, db_hunter, g').

(** What [db_target] is bound to: the hunter's own object, or a copy of a
    row loaded on its own. *)
Inductive TargetRef :=
  | SameObject
  | Separate (db_target : Player).

Definition deref (db_hunter : Player) (r : TargetRef) : Player :=
  match r with SameObject => db_hunter | Separate t => t end.

(** [db_target.shooting_stats['got_killed'] += 1;
     db_target.active_powerups["dead"] += 1] *)
Definition mark_killed (p : Player) : Player :=
  powerup_add "dead" 1 (stat_add "got_killed" 1 p).

(** *** [bang], lines 155-205: a confirmed death. *)
Definition killing (ctx : Ctx) (homing : bool) (target : option Z)
  (db_hunter : Player) (g : Rng) (db : gmap Z Player) : Result :=
  let db_hunter :=
    set_weapon_confiscated true
      (experience_add (-15) (stat_add "killed" 1 db_hunter)) in
  let '(db_target, db_hunter) :=
    match target with
    | None => (Separate (get_random_player ctx db), db_hunter)
    | Some member =>
        let loaded := get_player db member in
        (if id loaded =? id db_hunter then SameObject else Separate loaded,
         stat_add "murders" 1 db_hunter)
    end in
  let '(db_target, db_hunter) :=
    match db_target with
    | SameObject => (SameObject, mark_killed db_hunter)
    | Separate t => (Separate (mark_killed t), db_hunter)
    end in
  let victim := deref db_hunter db_target in
  let db :=
    if negb (id victim =? id db_hunter) then save db_hunter (save victim db)
    else save db_hunter db in
  let reply :=
    if homing then HomingSelfKill
    else match target with
         | Some member =>
             if member =? author ctx then Suicide else Murder (id victim)
         | None => BystanderKill (id victim)
         end in
  mkResult reply (Some db_hunter) db g.

(** *** [bang], lines 212-229: no human was hit. *)
Definition clean_hit (ctx : Ctx) (db_hunter : Player) (g : Rng)
  (db : gmap Z Player) : Result :=
  let db := save db_hunter db in
  if next_duck ctx then
    (* duck.shoot(args): the duck's own resolution is external *)
    mkResult ShotDuck (Some (stat_add "shots_with_duck" 1 db_hunter)) db g
  else if 1 <=? powerup db_hunter "detector" then
    let db_hunter :=
      bullets_add 1
        (stat_add "bullets_used" (-1)
           (stat_add "shots_stopped_by_detector" 1
              (powerup_add "detector" (-1) db_hunter))) in
    mkResult DetectorStopped (Some db_hunter) (save db_hunter db) g
  else
    let db_hunter :=
      experience_add (-2) (stat_add "shots_without_ducks" 1 db_hunter) in
    mkResult NoDuck (Some db_hunter) (save db_hunter db) g.

(** *** [bang], lines 125-229: everything from the accuracy roll on. *)
Definition shot_resolution (ctx : Ctx) (target : option Z)
  (level_info : LevelInfo) (db_hunter : Player) (g : Rng)
  (db : gmap Z Player) : Result :=
  let '(missed, db_hunter, g) := accuracy_roll level_info db_hunter g in
  let homing := 1 <=? powerup db_hunter "homing_bullets" in
  let '(db_hunter, missed, target) :=
    if homing then
      (powerup_add "homing_bullets" (-1) db_hunter, false, Some (author ctx))
    else (db_hunter, missed, target) in
  if (missed && negb (bool_decide (is_Some target)))
     || (bool_decide (is_Some target) && negb missed) then
    let db_hunter :=
      if missed then
        experience_add (-2) (stat_add "missed" 1 db_hunter)
      else if homing then
        experience_add (-2)
          (stat_add "missed" 1 (stat_add "homing_kills" 1 db_hunter))
      else db_hunter in
    let '(killed_someone, g) :=
      match target with
      | Some _ => (true, g)
      | None => compute_luck (inject_Z (kill_on_miss_chance ctx)) g
      end in
    if killed_someone then killing ctx homing target db_hunter g db
    else mkResult MissedTree (Some db_hunter) (save db_hunter db) g
  else clean_hit ctx db_hunter g db.

(** *** [bang] *)
Definition bang (ctx : Ctx) (target : option Z) (g : Rng)
  (db : gmap Z Player) : Result :=
  if negb (is_ready ctx) then mkResult NotReady None db g
  else
    let db_hunter := get_player db (author ctx) in
    match weapon_condition_gate (now ctx) db_hunter with
    | Some (reply, db_hunter) =>
        mkResult reply (Some db_hunter) (save db_hunter db) g
    | None =>
        let level_info := get_level_info (experience db_hunter) in
        let '(lucky, db_hunter, g) := jam_roll level_info db_hunter g in
        if negb lucky then
          let db_hunter :=
            set_weapon_jammed true
              (stat_add "shots_jamming_weapon" 1 db_hunter) in
          mkResult JamRollFailed (Some db_hunter) (save db_hunter db) g
        else
          shot_resolution ctx target level_info (consume_bullet db_hunter)
            g db
    end.

(** *** [reload]: the reply, the returned value and the database. *)
Inductive ReloadOutcome :=
  | ReloadConfiscated
  | Unjammed
  | Reloaded
  | UnneededReload
  | NoMagazines
  | NoReply.

Definition reload (ctx : Ctx) (db : gmap Z Player)
  : ReloadOutcome * option bool * gmap Z Player :=
  let db_hunter := get_player db (author ctx) in
  if weapon_confiscated db_hunter then
    (ReloadConfiscated, Some false,
     save (stat_add "reloads_when_confiscated" 1 db_hunter) db)
  else if weapon_jammed db_hunter then
    (Unjammed, Some true, save (set_weapon_jammed false db_hunter) db)
  else
    let level_info := get_level_info (experience db_hunter) in
    if (bullets db_hunter <=? 0) && (1 <=? magazines db_hunter) then
      (Reloaded, Some true,
       save (set_bullets (lv_bullets level_info)
               (magazines_add (-1) (stat_add "reloads" 1 db_hunter))) db)
    else if 0 <? bullets db_hunter then
      (UnneededReload, Some false,
       save (stat_add "unneeded_reloads" 1 db_hunter) db)
    else if magazines db_hunter <=? 0 then
      (NoMagazines, Some false,
       save (stat_add "unneeded_reloads" 1 db_hunter) db)
    else (NoReply, None, db).

(** *** [hug]: the reply and the database.  [HuggedDuck] stands for the call
    [duck.hug(args)], which belongs to the duck: the database returned with
    it is the one the command hands over. *)
Inductive HugOutcome :=
  | HugNotReady
  | HugWhenDead
  | HuggedPlayer (target : Z)
  | HuggedDuck
  | HuggedNothing.

Definition hug (ctx : Ctx) (target : option Z) (db : gmap Z Player)
  : HugOutcome * gmap Z Player :=
  if negb (is_ready ctx) then (HugNotReady, db)
  else
    let db_hunter := get_player db (author ctx) in
    if 0 <? powerup db_hunter "dead" then
      (HugWhenDead, save (hugged_add "when_dead" 1 db_hunter) db)
    else
      match target with
      | Some member =>
          (HuggedPlayer member, save (hugged_add "players" 1 db_hunter) db)
      | None =>
          if next_duck ctx then (HuggedDuck, db)
          else (HuggedNothing, save (hugged_add "nothing" 1 db_hunter) db)
      end.

(** *** [revive]: the reply (with the brains eaten) and the database. *)
Inductive ReviveOutcome :=
  | AlreadyAlive
  | Revived (brains : Z).

Definition revive (ctx : Ctx) (db : gmap Z Player)
  : ReviveOutcome * gmap Z Player :=
  let db_hunter := get_player db (author ctx) in
  let dead_times := powerup db_hunter "dead" in
  if dead_times =? 0 then
    (AlreadyAlive, save (stat_add "useless_revives" 1 db_hunter) db)
  else
    let db_hunter := powerup_set "dead" 0 db_hunter in
    let db_hunter := stat_add "revives" 1 db_hunter in
    let db_hunter := stat_add "brains_eaten" dead_times db_hunter in
    let db_hunter :=
      stat_set "max_brains_eaten_at_once"
        (Z.max (stat db_hunter "max_brains_eaten_at_once") dead_times)
        db_hunter in
    (Revived dead_times, save db_hunter db).

(** A run of shot attempts: each one starts from the database and the random
    source the one before it left. *)
Fixpoint bangs (attempts : list (Ctx * option Z)) (g : Rng)
  (db : gmap Z Player) : list Outcome * gmap Z Player :=
  match attempts with
  | [] => ([], db)
  | (ctx, target) :: rest =>
      let r := bang ctx target g db in
      let (replies, db') := bangs rest (rng r) (store r) in
      (outcome r :: replies, db')
  end.

(** The row of the invoking member as the database has it. *)
Definition persisted (ctx : Ctx) (db : gmap Z Player) : Player :=
  get_player db (author ctx).

End Commands.

End Hunting.

Import Hunting.

(** The replies of the clean-hit path, lines 212-229. *)
Definition is_clean_hit (reply : Outcome) : bool :=
  match reply with
  | ShotDuck | DetectorStopped | NoDuck => true
  | _ => false
  end.

(** The member a reply reports dead, if any. *)
Definition victim_of (ctx : Ctx) (reply : Outcome) : option Z :=
  match reply with
  | HomingSelfKill | Suicide => Some (author ctx)
  | Murder victim | BystanderKill victim => Some victim
  | _ => None
  end.

(** All of a row but its powerups. *)
Definition same_but_powerups (h h' : Player) : Prop :=
  (id h' = id h) /\ (experience h' = experience h) /\
  (bullets h' = bullets h) /\ (magazines h' = magazines h) /\
  (weapon_confiscated h' = weapon_confiscated h) /\
  (weapon_jammed h' = weapon_jammed h) /\
  (weapon_sabotaged_by h' = weapon_sabotaged_by h) /\
  (shooting_stats h' = shooting_stats h) /\ (hugged h' = hugged h).

(** A jammed, unsabotaged weapon in the hands of a living player whose
    clothes are dry by [t] and whose weapon is not confiscated. *)
Definition plainly_jammed (t : Z) (p : Player) : Prop :=
  weapon_sabotaged_by p = None /\ weapon_jammed p = true /\
  powerup p "dead" <= 0 /\ powerup p "wet" <= t /\
  weapon_confiscated p = false.

(** ** The gate as the specification words it

    "An ordered sequence of blocking checks (dead, wet, confiscated,
    sabotaged, jammed, empty)": the first check that triggers decides the
    reply.  [weapon_condition_gate] above is the source's chain of [if]s;
    this list is what it is compared with. *)

Definition gate_checks (now : Z) : list ((Player -> bool) * Outcome) :=
  [ (fun h => 0 <? powerup h "dead", ShooterDead);
    (fun h => now <? powerup h "wet", WeaponWet);
    (weapon_confiscated, WeaponConfiscated);
    (fun h => bool_decide (is_Some (weapon_sabotaged_by h)), Sabotaged);
    (weapon_jammed, WeaponJammed);
    (fun h => bullets h <=? 0, EmptyMagazine) ].

Fixpoint first_triggered (h : Player)
  (checks : list ((Player -> bool) * Outcome)) : option Outcome :=
  match checks with
  | [] => None
  | (check, reply) :: rest =>
      if check h then Some reply else first_triggered h rest
  end.

(** ** A small configuration to run the commands on

    One progression tier (the specification's example tier: reliability 50,
    accuracy 50), powerups active while their counter is positive, new rows
    with a full weapon, and entropy tapes written as lists. *)

Definition example_level_info (_ : Z) : LevelInfo := mkLevelInfo 6 2 50 50.

Definition example_powerup_active (p : Player) (k : string) : bool :=
  0 <? powerup p k.

Definition example_new_player (member : Z) : Player :=
  mkPlayer member 0 6 2 false false None ∅ ∅ ∅.

Definition tape (draws : list Z) : Rng := mkRng (fun n => nth n draws 0) 0.

Definition example_ctx (member : Z) : Ctx :=
  mkCtx member true 1000 5 member false.

Definition example_bang :=
  Hunting.bang example_level_info example_powerup_active example_new_player.
Definition example_reload :=
  Hunting.reload example_level_info example_new_player.
Definition example_row (ctx : Ctx) (db : gmap Z Player) : Player :=
  Hunting.persisted example_new_player ctx db.

(** A channel with a single player: no experience, one bullet, no powerup. *)
Definition lone_hunter : Player :=
  mkPlayer 1 0 1 2 false false None ∅ ∅ ∅.
Definition lone_db : gmap Z Player := {[ 1 := lone_hunter ]}.

(** The same channel with the player dead twice and out of bullets, with
    nothing left to reload, with a detector, with homing bullets behind a
    mirror and a sight, and with a sabotaged weapon. *)
Definition dead_db : gmap Z Player :=
  {[ 1 := mkPlayer 1 0 0 0 false false None {[ "dead" := 2 ]} ∅ ∅ ]}.
Definition spent_db : gmap Z Player :=
  {[ 1 := mkPlayer 1 0 0 0 false false None ∅ ∅ ∅ ]}.
Definition detector_db : gmap Z Player :=
  {[ 1 := mkPlayer 1 0 1 2 false false None {[ "detector" := 1 ]} ∅ ∅ ]}.
Definition homing_db : gmap Z Player :=
  {[ 1 := mkPlayer 1 0 1 2 false false None
            {[ "mirror" := 1; "homing_bullets" := 2; "sight" := 1 ]} ∅ ∅ ]}.
Definition sabotaged_db : gmap Z Player :=
  {[ 1 := mkPlayer 1 0 6 2 false false (Some 2) ∅ ∅ ∅ ]}.

(** ** What the four commands do to a row, reply by reply

    The vocabulary of the properties of [bang], [reload], [hug] and [revive]
    that follow the ones above. *)

(** The counters of a row that the commands keep from going negative. *)
Definition row_ok (p : Player) : Prop :=
  0 <= bullets p /\ 0 <= magazines p /\
  0 <= powerup p "sand" /\ 0 <= powerup p "mirror" /\
  0 <= powerup p "sight" /\ 0 <= powerup p "homing_bullets" /\
  0 <= powerup p "detector" /\ 0 <= powerup p "dead".

Definition store_ok (db : gmap Z Player) : Prop :=
  map_Forall (fun _ p => row_ok p) db.

(** A charge is spent only when there is one, and one at a time. *)
Definition spent_at_most_one (x x' : Z) : Prop :=
  x' = x \/ (0 < x /\ x' = x - 1).

(** The experience a reply of [bang] costs the shooter: 2 for a shot that
    hits nothing, 15 for a confirmed death, 2 and 15 when the death follows a
    missed shot or a homing bullet. *)
Definition experience_lost (reply : Outcome) : Z :=
  match reply with
  | MissedTree | NoDuck => 2
  | Suicide | Murder _ => 15
  | HomingSelfKill | BystanderKill _ => 17
  | _ => 0
  end.

(** The bullets a reply of [bang] costs: one for every reply past the jam
    roll, but for the detector's, which gives the bullet back. *)
Definition bullets_spent (reply : Outcome) : Z :=
  match reply with
  | MissedTree | NoDuck | ShotDuck | Suicide | Murder _ | HomingSelfKill
  | BystanderKill _ => 1
  | _ => 0
  end.

(** The replies of [bang] sent before any roll: the command is not ready, or
    a check of the gate triggered. *)
Definition is_blocked (reply : Outcome) : bool :=
  match reply with
  | NotReady | ShooterDead | WeaponWet | WeaponConfiscated | Sabotaged
  | WeaponJammed | EmptyMagazine => true
  | _ => false
  end.

(** The statistic a blocked attempt is counted under. *)
Definition blocked_statistic (reply : Outcome) : string :=
  match reply with
  | ShooterDead => "shots_when_dead"
  | WeaponWet => "shots_when_wet"
  | WeaponConfiscated => "shots_when_confiscated"
  | Sabotaged => "shots_when_sabotaged"
  | WeaponJammed => "shots_when_jammed"
  | EmptyMagazine => "shots_with_empty_magazine"
  | _ => ""
  end.

(** A weapon that jams at the next shot: the jammed row of the channel. *)
Definition jammed_db : gmap Z Player :=
  {[ 1 := mkPlayer 1 0 0 2 false true None ∅ ∅ ∅ ]}.

(** Rows with grease, with nothing, and with sand in the weapon. *)
Definition greased_hunter : Player :=
  mkPlayer 1 0 1 2 false false None {[ "grease" := 1 ]} ∅ ∅.
Definition sandy_hunter : Player :=
  mkPlayer 1 0 1 2 false false None {[ "sand" := 1 ]} ∅ ∅.

(** ** The private messages support cog

    [src/src/cogs/private_messages_support.py]: the cog's own state (two caches
    and the block list), its reading of messages and contexts, and the embed
    it builds.  What Discord answers is a parameter, and every call that
    reaches Discord is recorded as an event.  The reads of the bot's own
    database ([get_from_db]), the logging and the typing indicator are left
    out: they neither touch the cog's state nor decide a branch. *)

Module Support.

(** The exceptions the modelled code lets out or catches. *)
Inductive Raised :=
  | ValueError                                  (* int(...) of a non-number *)
  | KeyError
  | IndexError
  | NotFound                                    (* bot.fetch_user *)
  | NoPrivateMessage
  | NotInServer (must_be_in_guild_id : Z)
  | NotInChannel (must_be_in_channel_id : Z).

Inductive Res (A : Type) :=
  | Ok (a : A)
  | Raise (e : Raised).
Arguments Ok {A} a.
Arguments Raise {A} e.

Record User := mkUser { user_id : Z; user_name : string }.

Record Channel := mkChannel {
  channel_id : Z;
  channel_name : string;
  channel_category : option Z;       (* channel.category, by id *)
  channel_nsfw : bool
}.

Record Category := mkCategory { category_id : Z; category_guild : Z }.

Record Message := mkMessage {
  author : User;
  author_bot : bool;                 (* message.author.bot *)
  is_command : bool;                 (* ctx.valid *)
  guild : option Z;                  (* message.guild, by id *)
  channel : Channel;
  content : string;
  attachments : list string          (* the url of each attachment *)
}.

Record Context := mkContext { ctx_guild : option Z; ctx_channel : Channel }.

Inductive FieldName := Attached | AttachmentsPersistance.

Record Embed := mkEmbed {
  description : string;
  image : option string;
  fields : list (FieldName * string)
}.

(** [s.endswith(suffix)] *)
Definition endswith (s suffix : string) : bool :=
  (String.length suffix <=? String.length s)%nat
  && String.eqb
       (String.substring (String.length s - String.length suffix)
          (String.length suffix) s)
       suffix.

(** [handle_support_message], lines 289-310: the embed sent to the user. *)
Definition support_embed (message : Message) : Embed :=
  let embed := mkEmbed (content message) None [] in
  match attachments message with
  | [] => embed
  | [url] =>
      if negb (channel_nsfw (channel message))
         && (endswith url ".webp" || endswith url ".png"
             || endswith url ".jpg")
      then mkEmbed (description embed) (Some url) (fields embed)
      else mkEmbed (description embed) (image embed)
             (fields embed ++ [(Attached, url)])
  | urls =>
      mkEmbed (description embed) (image embed)
        (fold_left (fun fs url => fs ++ [(Attached, url)]) urls
           (fields embed)
         ++ [(AttachmentsPersistance, "")])
  end.

Section Cog.

Variable Webhook : Type.

(** [self.webhook_cache] (keyed by channel), [self.users_cache] and
    [self.blocked_ids]. *)
Record Cog := mkCog {
  webhook_cache : gmap Z Webhook;
  users_cache : gmap Z User;
  blocked_ids : list Z
}.

(** The calls that leave the cog. *)
Inductive Event :=
  | FetchUser (id : Z)                          (* bot.fetch_user *)
  | CreateTextChannel (name : string)
  | CreateWebhook (channel : Z)
  | ListWebhooks (channel : Z)                  (* channel.webhooks() *)
  | TicketOpening (channel : Z) (user : Z)      (* handle_ticket_opening *)
  | WebhookSend (webhook : Webhook) (content : string)
  | MirroredInviteHelp (channel : Z) (user : Z) (* send_mirrored_message *)
  | UserSend (user : Z) (embed : Embed)
  | ChannelError (channel : Z)                  (* the notice of a failed send *)
  | UserClosed (user : Z)                       (* the closing embed *)
  | CtxSendOk                                   (* ctx.send of the thumbs up *)
  | DeleteChannel (channel : Z).

(** A computation of the cog: it reads and writes the cog's state, emits
    events in order and returns or raises. *)
Definition M (A : Type) : Type := Cog -> Res A * Cog * list Event.

Definition ret {A} (a : A) : M A := fun s => (Ok a, s, []).
Definition raise {A} (e : Raised) : M A := fun s => (Raise e, s, []).
Definition emit (e : Event) : M unit := fun s => (Ok tt, s, [e]).
Definition get : M Cog := fun s => (Ok s, s, []).
Definition put (s : Cog) : M unit := fun _ => (Ok tt, s, []).

Definition bind {A B} (m : M A) (k : A -> M B) : M B :=
  fun s =>
    match m s with
    | (Ok a, s1, ev1) =>
        let '(r, s2, ev2) := k a s1 in (r, s2, ev1 ++ ev2)
    | (Raise e, s1, ev1) => (Raise e, s1, ev1)
    end.

(** [try: m except e: pass] *)
Definition except_pass (caught : Raised -> bool) (m : M unit) : M unit :=
  fun s =>
    match m s with
    | (Raise e, s1, ev1) =>
        if caught e then (Ok tt, s1, ev1) else (Raise e, s1, ev1)
    | r => r
    end.

Notation "x <- m ;; k" := (bind m (fun x => k))
  (at level 100, m at next level, right associativity).
Notation "m ;;; k" := (bind m (fun _ => k))
  (at level 100, right associativity).

(** What the interpreter and Discord answer. *)
Variable py_int : string -> option Z.             (* int(s) *)
Variable py_str : Z -> string.                    (* str(n) *)
Variable forwarding_category : Category.          (* get_forwarding_category *)
Variable fetch_user : Z -> option User.
Variable find_channel : string -> option Channel. (* discord.utils.get(
                                                     category.text_channels,
                                                     name=...) *)
Variable create_text_channel : string -> Channel.
Variable create_webhook : Channel -> Webhook.
Variable webhooks : Channel -> list Webhook.
Variable invites_regex_search : string -> bool.   (* invites_regex.search *)
Variable dm_open : User -> bool.                  (* user.send goes through *)

Definition int (s : string) : M Z :=
  match py_int s with
  | Some n => ret n
  | None => raise ValueError
  end.

(** [is_in_forwarding_channels] *)
Definition is_in_forwarding_channels (ctx : Context) : M bool :=
  let category := forwarding_category in
  match ctx_guild ctx with
  | None => raise NoPrivateMessage
  | Some guild_id =>
      if negb (guild_id =? category_guild category) then
        raise (NotInServer (category_guild category))
      else if negb (bool_decide (channel_category (ctx_channel ctx)
                                 = Some (category_id category))) then
        raise (NotInChannel (category_id category))
      else ret true
  end.

(** [get_user] *)
Definition get_user (user_id : string) : M User :=
  user_id <- int user_id ;;
  s <- get ;;
  match users_cache s !! user_id with
  | Some user => ret user
  | None =>
      emit (FetchUser user_id) ;;;
      match fetch_user user_id with
      | None => raise NotFound
      | Some user =>
          put (mkCog (webhook_cache s) (<[user_id := user]> (users_cache s))
                 (blocked_ids s)) ;;;
          ret user
      end
  end.

(** [dict.pop(key)] *)
Definition pop_user (key : Z) : M unit :=
  s <- get ;;
  match users_cache s !! key with
  | None => raise KeyError
  | Some _ =>
      put (mkCog (webhook_cache s) (delete key (users_cache s))
             (blocked_ids s))
  end.

Definition pop_webhook (key : Z) : M unit :=
  s <- get ;;
  match webhook_cache s !! key with
  | None => raise KeyError
  | Some _ =>
      put (mkCog (delete key (webhook_cache s)) (users_cache s)
             (blocked_ids s))
  end.

Definition is_KeyError (e : Raised) : bool :=
  match e with KeyError => true | _ => false end.

(** [clear_caches] *)
Definition clear_caches (channel : Channel) : M unit :=
  except_pass is_KeyError
    (key <- int (channel_name channel) ;; pop_user key) ;;;
  except_pass is_KeyError (pop_webhook (channel_id channel)).

(** [get_or_create_channel]; the ticket opening is one event. *)
Definition get_or_create_channel (user : User) : M Channel :=
  match find_channel (py_str (user_id user)) with
  | None =>
      emit (CreateTextChannel (py_str (user_id user))) ;;;
      let channel := create_text_channel (py_str (user_id user)) in
      emit (CreateWebhook (channel_id channel)) ;;;
      let webhook := create_webhook channel in
      s <- get ;;
      put (mkCog (<[channel_id channel := webhook]> (webhook_cache s))
             (users_cache s) (blocked_ids s)) ;;;
      emit (TicketOpening (channel_id channel) (user_id user)) ;;;
      ret channel
  | Some channel =>
      s <- get ;;
      match webhook_cache s !! channel_id channel with
      | Some _ => ret channel
      | None =>
          emit (ListWebhooks (channel_id channel)) ;;;
          match webhooks channel with
          | [] => raise IndexError
          | webhook :: _ =>
              put (mkCog (<[channel_id channel := webhook]> (webhook_cache s))
                     (users_cache s) (blocked_ids s)) ;;;
              ret channel
          end
      end
  end.

(** [handle_dm_message] *)
Definition handle_dm_message (message : Message) : M unit :=
  s <- get ;;
  if bool_decide (user_id (author message) ∈ blocked_ids s) then ret tt
  else
    forwarding_channel <- get_or_create_channel (author message) ;;
    s <- get ;;
    match webhook_cache s !! channel_id forwarding_channel with
    | None => raise KeyError
    | Some forwarding_webhook =>
        emit (WebhookSend forwarding_webhook (content message))
    end.

(** [handle_auto_responses] *)
Definition handle_auto_responses (message : Message) : M unit :=
  forwarding_channel <- get_or_create_channel (author message) ;;
  if invites_regex_search (content message) then
    emit (MirroredInviteHelp (channel_id forwarding_channel)
            (user_id (author message)))
  else ret tt.

(** [handle_support_message] *)
Definition handle_support_message (message : Message) : M unit :=
  user <- get_user (channel_name (channel message)) ;;
  if dm_open user then
    emit (UserSend (user_id user) (support_embed message))
  else emit (ChannelError (channel_id (channel message))).

(** [on_message] *)
Definition on_message (message : Message) : M unit :=
  if author_bot message then ret tt
  else if is_command message then ret tt
  else
    match guild message with
    | Some _ =>
        if bool_decide (channel_category (channel message)
                        = Some (category_id forwarding_category)) then
          if String.prefix ">" (content message) then ret tt
          else handle_support_message message
        else ret tt
    | None =>
        handle_dm_message message ;;;
        handle_auto_responses message
    end.

(** [private_support block] *)
Definition block (ctx : Context) : M unit :=
  is_in_forwarding_channels ctx ;;;
  n <- int (channel_name (ctx_channel ctx)) ;;
  s <- get ;;
  put (mkCog (webhook_cache s) (users_cache s) (blocked_ids s ++ [n])) ;;;
  emit CtxSendOk.

(** [private_support close]; the duck picture is taken as fetched, and a
    closing embed that cannot be delivered is passed over ([except: pass]). *)
Definition close (ctx : Context) : M unit :=
  is_in_forwarding_channels ctx ;;;
  user <- get_user (channel_name (ctx_channel ctx)) ;;
  (if dm_open user then emit (UserClosed (user_id user)) else ret tt) ;;;
  clear_caches (ctx_channel ctx) ;;;
  emit (DeleteChannel (channel_id (ctx_channel ctx))).

(** [private_support close_silent] *)
Definition close_silent (ctx : Context) : M unit :=
  is_in_forwarding_channels ctx ;;;
  clear_caches (ctx_channel ctx) ;;;
  emit (DeleteChannel (channel_id (ctx_channel ctx))).

End Cog.

End Support.

(** The urls an embed shows: its image and its "Attached" fields. *)
Definition attached_urls (e : Support.Embed) : list string :=
  match Support.image e with Some url => [url] | None => [] end
  ++ omap (fun f => match f with
                    | (Support.Attached, url) => Some url
                    | _ => None
                    end) (Support.fields e).

(** ** A small support server

    Guild 1 with the forwarding category 7; webhooks are numbers; the only
    channel name that reads as a number is "42"; every user exists and takes
    private messages; no ticket channel exists yet. *)

Definition example_int (s : string) : option Z :=
  if String.eqb s "42" then Some 42 else None.
Definition example_str (_ : Z) : string := "42".
Definition example_category : Support.Category := Support.mkCategory 7 1.
Definition example_fetch_user (n : Z) : option Support.User :=
  Some (Support.mkUser n "hunter").
Definition example_find_channel (_ : string) : option Support.Channel := None.
Definition example_create_text_channel (name : string) : Support.Channel :=
  Support.mkChannel 100 name (Some 7) false.
Definition example_create_webhook (ch : Support.Channel) : Z :=
  Support.channel_id ch.
Definition example_webhooks (_ : Support.Channel) : list Z := [].
Definition example_invites (_ : string) : bool := false.
Definition example_dm_open (_ : Support.User) : bool := true.

Definition empty_cog : Support.Cog Z := Support.mkCog Z ∅ ∅ [].

(** The ticket channel of user 42, a command run in it, a private message of
    that user and a staff answer with two attachments. *)
Definition ticket_channel : Support.Channel :=
  Support.mkChannel 100 "42" (Some 7) false.
Definition ticket_ctx : Support.Context :=
  Support.mkContext (Some 1) ticket_channel.
Definition example_dm : Support.Message :=
  Support.mkMessage (Support.mkUser 42 "hunter") false false None
    (Support.mkChannel 0 "" None false) "hello" [].
Definition example_answer : Support.Message :=
  Support.mkMessage (Support.mkUser 5 "staff") false false (Some 1)
    ticket_channel "here" ["a.png"; "b.txt"].

(** ** Mappings and rows: reading after an update *)

Lemma item_add_eq k d m : item (item_add k d m) k = item m k + d.
Proof. unfold item, item_add. now rewrite lookup_insert_eq. Qed.

Lemma item_add_ne k k' d m : k <> k' -> item (item_add k d m) k' = item m k'.
Proof. intros Hne. unfold item, item_add. now rewrite lookup_insert_ne. Qed.

Lemma powerup_add_eq k d p : powerup (powerup_add k d p) k = powerup p k + d.
Proof. apply item_add_eq. Qed.

Lemma powerup_add_ne k k' d p :
  k <> k' -> powerup (powerup_add k d p) k' = powerup p k'.
Proof. apply item_add_ne. Qed.

Lemma stat_add_eq k d p : stat (stat_add k d p) k = stat p k + d.
Proof. apply item_add_eq. Qed.

Lemma stat_add_ne k k' d p : k <> k' -> stat (stat_add k d p) k' = stat p k'.
Proof. apply item_add_ne. Qed.

Lemma save_wf p db : store_wf db -> store_wf (save p db).
Proof.
  intros Hwf. unfold store_wf, save.
  apply map_Forall_insert_2; [reflexivity | exact Hwf].
Qed.

(** Projections through the setters, and lookups through the updates. *)
Ltac rows :=
  unfold powerup, stat in *;
  cbn [id experience bullets magazines weapon_confiscated weapon_jammed
       weapon_sabotaged_by active_powerups shooting_stats hugged
       set_experience set_bullets set_magazines set_weapon_confiscated
       set_weapon_jammed set_weapon_sabotaged_by set_active_powerups
       set_shooting_stats experience_add bullets_add magazines_add
       powerup_add stat_add consume_bullet mark_killed deref
       outcome hunter store rng fst snd] in *.

Ltac items :=
  repeat first [ rewrite item_add_eq
               | rewrite item_add_ne by (discriminate || congruence) ].

Ltac break_if :=
  match goal with
  | |- context [if ?b then _ else _] => destruct b eqn:?
  end.

(** ** Properties of the commands *)

Section Properties.

Variable get_level_info : Z -> LevelInfo.
Variable is_powerup_active : Player -> string -> bool.
Variable new_player : Z -> Player.

(** A row created for a member is that member's row. *)
Hypothesis new_player_id : forall member, id (new_player member) = member.

Local Abbreviation get_player := (Hunting.get_player new_player).
Local Abbreviation bang :=
  (Hunting.bang get_level_info is_powerup_active new_player).
Local Abbreviation reload := (Hunting.reload get_level_info new_player).
Local Abbreviation shot_resolution := (Hunting.shot_resolution new_player).
Local Abbreviation jam_roll := (Hunting.jam_roll is_powerup_active).
Local Abbreviation persisted := (Hunting.persisted new_player).
Local Abbreviation killing := (Hunting.killing new_player).
Local Abbreviation bangs :=
  (Hunting.bangs get_level_info is_powerup_active new_player).

Lemma id_get_player db member :
  store_wf db -> id (get_player db member) = member.
Proof.
  intros Hwf. unfold Hunting.get_player.
  destruct (db !! member) as [p|] eqn:E; simpl.
  - exact (Hwf _ _ E).
  - apply new_player_id.
Qed.

Lemma get_player_save p db :
  get_player (save p db) (id p) = p.
Proof. unfold Hunting.get_player, save. now rewrite lookup_insert_eq. Qed.

Lemma get_player_save_id p db member :
  id p = member -> get_player (save p db) member = p.
Proof. intros <-. apply get_player_save. Qed.

Lemma get_player_save_ne p db member :
  id p <> member -> get_player (save p db) member = get_player db member.
Proof.
  intros Hne. unfold Hunting.get_player, save. now rewrite lookup_insert_ne.
Qed.

Lemma gate_first_triggered now h :
  fst <$> weapon_condition_gate now h = first_triggered h (gate_checks now).
Proof.
  unfold weapon_condition_gate. simpl.
  destruct (0 <? powerup h "dead"); [reflexivity|].
  destruct (now <? powerup h "wet"); [reflexivity|].
  destruct (weapon_confiscated h); [reflexivity|].
  destruct (weapon_sabotaged_by h) as [s|]; simpl.
  - reflexivity.
  - destruct (weapon_jammed h); [reflexivity|].
    destruct (bullets h <=? 0); reflexivity.
Qed.

Lemma bang_blocked ctx target g db reply h' :
  is_ready ctx = true ->
  weapon_condition_gate (now ctx) (get_player db (author ctx))
    = Some (reply, h') ->
  bang ctx target g db = mkResult reply (Some h') (save h' db) g.
Proof.
  intros Hready Hgate. unfold Hunting.bang. rewrite Hready. simpl.
  now rewrite Hgate.
Qed.

(** C6.  The chance trial draws one integer in [1..100] and answers whether
    the draw is at most the percentage; so a percentage of 0 or less never
    succeeds and one of 100 or more always does, whatever the state of the
    random source. *)
Theorem compute_luck_threshold (p : Q) (g : Rng) :
  let current := fst (randint 1 100 g) in
  1 <= current <= 100 /\
  snd (compute_luck p g) = advance g /\
  (fst (compute_luck p g) = true <-> (inject_Z current <= p)%Q) /\
  ((p <= 0)%Q -> fst (compute_luck p g) = false) /\
  ((100 <= p)%Q -> fst (compute_luck p g) = true).
Proof.
  unfold compute_luck, randint. simpl.
  set (e := entropy g (cursor g)).
  assert (Hr : 1 <= 1 + e `mod` (100 - 1 + 1) <= 100).
  { pose proof (Z.mod_pos_bound e (100 - 1 + 1) ltac:(lia)). lia. }
  split; [exact Hr|]. split; [reflexivity|].
  split; [apply Qle_bool_iff|]. split.
  - intros Hp. apply not_true_is_false. intros Ht.
    apply Qle_bool_iff in Ht.
    assert (Hq : (inject_Z (1 + e `mod` (100 - 1 + 1)) <= 0)%Q)
      by (eapply Qle_trans; eauto).
    change 0%Q with (inject_Z 0) in Hq. rewrite <- Zle_Qle in Hq. lia.
  - intros Hp. apply Qle_bool_iff.
    eapply Qle_trans; [|exact Hp].
    change 100%Q with (inject_Z 100). rewrite <- Zle_Qle. lia.
Qed.

(** C2.  The gate answers with the first check that triggers in the order
    dead, wet, confiscated, sabotaged, jammed, empty, and that answer is the
    outcome of the shot attempt; in particular a dead player without
    bullets is told "dead", never "empty magazine". *)
Theorem gate_order ctx target g db :
  let h := get_player db (author ctx) in
  fst <$> weapon_condition_gate (now ctx) h
    = first_triggered h (gate_checks (now ctx)) /\
  (is_ready ctx = true ->
   forall reply, first_triggered h (gate_checks (now ctx)) = Some reply ->
     outcome (bang ctx target g db) = reply) /\
  (0 < powerup h "dead" -> bullets h <= 0 ->
   outcome (bang ctx target g db) <> EmptyMagazine /\
   (is_ready ctx = true -> outcome (bang ctx target g db) = ShooterDead)).
Proof.
  intros h. split; [apply gate_first_triggered|]. split.
  - intros Hready reply Hfirst. rewrite <- gate_first_triggered in Hfirst.
    destruct (weapon_condition_gate (now ctx) h) as [[r h']|] eqn:Hgate;
      [|discriminate].
    simpl in Hfirst. injection Hfirst as ->.
    now rewrite (bang_blocked _ _ _ _ _ _ Hready Hgate).
  - intros Hdead _.
    assert (Hgate : weapon_condition_gate (now ctx) h
              = Some (ShooterDead, stat_add "shots_when_dead" 1 h)).
    { unfold weapon_condition_gate.
      now rewrite (proj2 (Z.ltb_lt _ _) Hdead). }
    destruct (is_ready ctx) eqn:Hready.
    + rewrite (bang_blocked _ _ _ _ _ _ Hready Hgate). simpl.
      split; [discriminate|reflexivity].
    + unfold Hunting.bang. rewrite Hready. simpl.
      split; [discriminate|discriminate].
Qed.

(** C8.  Reloading with no bullet and no magazine, the weapon neither
    confiscated nor jammed, changes nothing in the database but one
    statistic of the player, [unneeded_reloads]: bullets and magazines stay
    0, experience, powerups and every other field and row are as before. *)
Theorem reload_without_magazines ctx db :
  store_wf db ->
  let h := get_player db (author ctx) in
  weapon_confiscated h = false ->
  weapon_jammed h = false ->
  bullets h = 0 ->
  magazines h = 0 ->
  let '(reply, returned, db') := reload ctx db in
  let h' := persisted ctx db' in
  reply = NoMagazines /\ returned = Some false /\
  h' = stat_add "unneeded_reloads" 1 h /\
  bullets h' = 0 /\ magazines h' = 0 /\
  experience h' = experience h /\
  active_powerups h' = active_powerups h /\
  stat h' "unneeded_reloads" = stat h "unneeded_reloads" + 1 /\
  (forall k, k <> "unneeded_reloads" -> stat h' k = stat h k) /\
  (forall member, member <> author ctx -> db' !! member = db !! member).
Proof.
  intros Hwf h Hconf Hjam Hb Hm. unfold Hunting.reload. fold h.
  rewrite Hconf, Hjam, Hb, Hm. simpl.
  assert (Hid : id (stat_add "unneeded_reloads" 1 h) = author ctx)
    by (apply id_get_player, Hwf).
  assert (Hp : persisted ctx (save (stat_add "unneeded_reloads" 1 h) db)
            = stat_add "unneeded_reloads" 1 h).
  { unfold Hunting.persisted. rewrite <- Hid. apply get_player_save. }
  rewrite Hp. repeat split; try assumption.
  - apply stat_add_eq.
  - intros k Hk. apply stat_add_ne. congruence.
  - intros member Hne. unfold save. rewrite lookup_insert_ne; congruence.
Qed.

Lemma jam_roll_frame li h g :
  let '(lucky, h', g') := jam_roll li h g in
  same_but_powerups h h' /\
  (forall k, k <> "sand" -> powerup h' k = powerup h k).
Proof.
  unfold Hunting.jam_roll.
  destruct (compute_luck (inject_Z (lv_reliability li)) g) as [lucky g1].
  destruct (compute_luck (inject_Z (lv_reliability li)) g1) as [again g2].
  unfold same_but_powerups.
  repeat break_if; rows; (split; [tauto|]); intros k Hk; items; reflexivity.
Qed.

Lemma accuracy_roll_frame li h g :
  let '(missed, h', g') := accuracy_roll li h g in
  g' = advance g /\ same_but_powerups h h' /\
  (forall k, k <> "mirror" -> k <> "sight" -> powerup h' k = powerup h k) /\
  powerup h' "mirror"
    = (if 0 <? powerup h "mirror" then powerup h "mirror" - 1
       else powerup h "mirror") /\
  powerup h' "sight"
    = (if 0 <? powerup h "sight" then powerup h "sight" - 1
       else powerup h "sight").
Proof.
  unfold accuracy_roll, aim, same_but_powerups, compute_luck, randint.
  destruct (0 <? powerup h "mirror") eqn:Hm.
  - destruct (0 <? powerup (powerup_add "mirror" (-1) h) "sight") eqn:Hs;
      rewrite powerup_add_ne in Hs by discriminate; rewrite Hs; rows;
      (split; [reflexivity|]); (split; [tauto|]);
      (split; [intros k Hk1 Hk2; items; reflexivity|]);
      items; split; reflexivity || lia.
  - destruct (0 <? powerup h "sight") eqn:Hs; rows;
      (split; [reflexivity|]); (split; [tauto|]);
      (split; [intros k Hk1 Hk2; items; reflexivity|]);
      items; try rewrite Hm; split; reflexivity || lia.
Qed.

(** The row the accuracy roll leaves does not depend on the draw. *)
Lemma accuracy_roll_player li h g g2 :
  snd (fst (accuracy_roll li h g)) = snd (fst (accuracy_roll li h g2)).
Proof.
  unfold accuracy_roll, aim, compute_luck, randint.
  repeat break_if; reflexivity.
Qed.

Lemma persisted_save ctx p db :
  id p = author ctx -> persisted ctx (save p db) = p.
Proof.
  intros Hid. unfold Hunting.persisted. rewrite <- Hid.
  apply get_player_save.
Qed.

Lemma bang_passed ctx target g db :
  is_ready ctx = true ->
  weapon_condition_gate (now ctx) (get_player db (author ctx)) = None ->
  bang ctx target g db =
    let h := get_player db (author ctx) in
    let li := get_level_info (experience h) in
    let '(lucky, h1, g1) := jam_roll li h g in
    if lucky then shot_resolution ctx target li (consume_bullet h1) g1 db
    else
      let h1 := set_weapon_jammed true
                  (stat_add "shots_jamming_weapon" 1 h1) in
      mkResult JamRollFailed (Some h1) (save h1 db) g1.
Proof.
  intros Hready Hgate. unfold Hunting.bang. rewrite Hready, Hgate.
  cbn [negb].
  destruct (jam_roll _ _ _) as [[[] h1] g1]; reflexivity.
Qed.

(** C1.  Once the gate is passed, a failed jam roll leaves the bullets as
    they were, jams the weapon and answers "jammed"; otherwise the shot goes
    on to the accuracy roll with exactly one bullet less, and that is the
    count the database ends with unless the detector gives the bullet
    back. *)
Theorem bullet_accounting ctx target g db :
  store_wf db ->
  is_ready ctx = true ->
  let h := get_player db (author ctx) in
  weapon_condition_gate (now ctx) h = None ->
  let li := get_level_info (experience h) in
  let r := bang ctx target g db in
  let h' := persisted ctx (store r) in
  match jam_roll li h g with
  | (false, h1, g1) =>
      outcome r = JamRollFailed /\ rng r = g1 /\
      bullets h' = bullets h /\ weapon_jammed h' = true /\
      stat h' "bullets_used" = stat h "bullets_used"
  | (true, h1, g1) =>
      bullets (consume_bullet h1) = bullets h - 1 /\
      r = shot_resolution ctx target li (consume_bullet h1) g1 db /\
      bullets h' = (if decide (outcome r = DetectorStopped) then bullets h
                    else bullets h - 1)
  end.
Proof.
  intros Hwf Hready h Hgate li r h'.
  pose proof (id_get_player db (author ctx) Hwf) as Hid. fold h in Hid.
  pose proof (bang_passed ctx target g db Hready Hgate) as Hr.
  fold r in Hr. cbv zeta in Hr. fold h li in Hr.
  pose proof (jam_roll_frame li h g) as Hjam.
  destruct (jam_roll li h g) as [[lucky h1] g1].
  destruct Hjam as [(Hid1 & Hx1 & Hb1 & _ & _ & _ & _ & Hst1 & _) _].
  destruct lucky.
  - split; [rows; lia|]. split; [exact Hr|].
    subst h'. rewrite Hr. clear Hr r.
    unfold Hunting.shot_resolution.
    pose proof (accuracy_roll_frame li (consume_bullet h1) g1) as Hacc.
    destruct (accuracy_roll li (consume_bullet h1) g1) as [[missed h2] g2].
    destruct Hacc as (_ & (Hid2 & _ & Hb2 & _) & _).
    rows.
    assert (Hida : id h2 = author ctx) by congruence.
    assert (Hbul : bullets h2 = bullets h - 1) by lia.
    unfold Hunting.killing, Hunting.clean_hit, get_random_player.
    destruct target as [member|];
      repeat first [ break_if
                   | match goal with
                     | |- context [compute_luck ?p ?g] =>
                         destruct (compute_luck p g) as [? ?]
                     end ];
      rows; rewrite persisted_save by (rows; assumption); rows;
      try discriminate; try congruence; lia.
  - subst h'. rewrite Hr. rows.
    rewrite persisted_save by (rows; congruence). rows.
    unfold item_add. rewrite Hst1. repeat split; try lia.
    unfold item. rewrite lookup_insert_ne by discriminate. reflexivity.
Qed.

Lemma gate_reply_not_clean now h reply hb :
  weapon_condition_gate now h = Some (reply, hb) ->
  is_clean_hit reply = false.
Proof.
  unfold weapon_condition_gate.
  destruct (0 <? powerup h "dead"); [now intros [= <- <-]|].
  destruct (now <? powerup h "wet"); [now intros [= <- <-]|].
  destruct (weapon_confiscated h); [now intros [= <- <-]|].
  destruct (weapon_sabotaged_by h); [now intros [= <- <-]|].
  destruct (weapon_jammed h); [now intros [= <- <-]|].
  destruct (bullets h <=? 0); [now intros [= <- <-]|discriminate].
Qed.

(** C7.  A shot that ends on the clean-hit path with no duck waiting, fired
    by a player whose detector counter is 1, is stopped by the detector: the
    counter drops to 0, the bullet is given back, the bullets-used statistic
    is where it was, and no experience is lost. *)
Theorem detector_refund ctx target g db :
  store_wf db ->
  let h := get_player db (author ctx) in
  let r := bang ctx target g db in
  let h' := persisted ctx (store r) in
  powerup h "detector" = 1 ->
  next_duck ctx = false ->
  is_clean_hit (outcome r) = true ->
  outcome r = DetectorStopped /\
  powerup h' "detector" = 0 /\
  bullets h' = bullets h /\
  stat h' "bullets_used" = stat h "bullets_used" /\
  stat h' "shots_stopped_by_detector"
    = stat h "shots_stopped_by_detector" + 1 /\
  experience h' = experience h /\
  hunter r = Some h'.
Proof.
  intros Hwf h r h' Hdet Hduck Hclean.
  pose proof (id_get_player db (author ctx) Hwf) as Hid. fold h in Hid.
  destruct (is_ready ctx) eqn:Hready;
    [|unfold r, Hunting.bang in Hclean; rewrite Hready in Hclean;
      discriminate].
  destruct (weapon_condition_gate (now ctx) h) as [[reply hb]|] eqn:Hgate.
  { unfold r in Hclean.
    rewrite (bang_blocked _ _ _ _ _ _ Hready Hgate) in Hclean.
    cbn [outcome] in Hclean.
    now rewrite (gate_reply_not_clean _ _ _ _ Hgate) in Hclean. }
  pose proof (bang_passed ctx target g db Hready Hgate) as Hr.
  fold r in Hr. cbv zeta in Hr. fold h in Hr.
  set (li := get_level_info (experience h)) in *.
  pose proof (jam_roll_frame li h g) as Hjam.
  destruct (jam_roll li h g) as [[lucky h1] g1].
  destruct Hjam as [(Hid1 & Hx1 & Hb1 & _ & _ & _ & _ & Hst1 & _) Hp1].
  destruct lucky; [|rewrite Hr in Hclean; discriminate].
  subst h'. revert Hclean. rewrite Hr. clear Hr r.
  unfold Hunting.shot_resolution.
  pose proof (accuracy_roll_frame li (consume_bullet h1) g1) as Hacc.
  destruct (accuracy_roll li (consume_bullet h1) g1) as [[missed h2] g2].
  destruct Hacc as (_ & (Hid2 & Hx2 & Hb2 & _ & _ & _ & _ & Hst2 & _)
                    & Hp2 & _).
  assert (Hdet2 : powerup h2 "detector" = 1).
  { rewrite Hp2 by discriminate. rows. rewrite Hp1 by discriminate.
    exact Hdet. }
  rows.
  assert (Hida : id h2 = author ctx) by congruence.
  unfold Hunting.killing, Hunting.clean_hit, get_random_player.
  rewrite Hduck.
  destruct target as [member|];
    repeat first [ break_if
                 | match goal with
                   | |- context [compute_luck ?p ?g] =>
                       destruct (compute_luck p g) as [? ?]
                   end ];
    rows; try discriminate; intros _;
    rewrite persisted_save by (rows; assumption); rows; items;
    rewrite ?Hst2, ?Hst1; items;
    try (rewrite Hdet2 in *; discriminate);
    repeat split; try lia; try reflexivity.
Qed.

Lemma shot_resolution_homing ctx target li h g db :
  store_wf db ->
  id h = author ctx ->
  1 <= powerup h "homing_bullets" ->
  shot_resolution ctx target li h g db =
    let h2 := snd (fst (accuracy_roll li h g)) in
    let shot :=
      experience_add (-2)
        (stat_add "missed" 1
           (stat_add "homing_kills" 1
              (powerup_add "homing_bullets" (-1) h2))) in
    let dead :=
      mark_killed
        (stat_add "murders" 1
           (set_weapon_confiscated true
              (experience_add (-15) (stat_add "killed" 1 shot)))) in
    mkResult HomingSelfKill (Some dead) (save dead db) (advance g).
Proof.
  intros Hwf Hid Hhoming. unfold Hunting.shot_resolution.
  pose proof (accuracy_roll_frame li h g) as Hacc.
  destruct (accuracy_roll li h g) as [[missed h2] g2].
  destruct Hacc as (-> & (Hid2 & _) & Hp2 & _).
  assert (Hh2 : (1 <=? powerup h2 "homing_bullets") = true).
  { rewrite Hp2 by discriminate. now apply Z.leb_le. }
  rewrite Hh2. cbn [fst snd andb orb negb].
  rewrite bool_decide_eq_true_2 by eauto. cbn [andb orb negb].
  unfold Hunting.killing.
  assert (Hsame : forall x, id x = id h2 ->
            (id (get_player db (author ctx)) =? id x) = true).
  { intros x Hx. rewrite (id_get_player _ _ Hwf). apply Z.eqb_eq.
    congruence. }
  rewrite Hsame by reflexivity. cbn [deref].
  rewrite Z.eqb_refl. reflexivity.
Qed.

(** C10.  With a homing bullet loaded, a shot that passes the gate and the jam
    roll kills the shooter, whatever the target and whatever the accuracy
    draw: one homing charge is spent, exactly one draw is made after the jam
    roll (so the kill-on-miss roll is not made), mirror and sight charges are
    spent as usual, and the shooter's row ends with one more death, the
    weapon confiscated and 17 experience less. *)
Theorem homing_self_kill ctx target g db :
  store_wf db ->
  is_ready ctx = true ->
  let h := get_player db (author ctx) in
  weapon_condition_gate (now ctx) h = None ->
  let li := get_level_info (experience h) in
  let h1 := snd (fst (jam_roll li h g)) in
  let g1 := snd (jam_roll li h g) in
  fst (fst (jam_roll li h g)) = true ->
  1 <= powerup h "homing_bullets" ->
  let r := bang ctx target g db in
  let h' := persisted ctx (store r) in
  outcome r = HomingSelfKill /\
  hunter r = Some h' /\
  powerup h' "homing_bullets" = powerup h "homing_bullets" - 1 /\
  rng r = advance g1 /\
  (forall g2,
     let r2 := shot_resolution ctx target li (consume_bullet h1) g2 db in
     outcome r2 = outcome r /\ hunter r2 = hunter r /\
     store r2 = store r /\ rng r2 = advance g2) /\
  powerup h' "mirror"
    = (if 0 <? powerup h "mirror" then powerup h "mirror" - 1
       else powerup h "mirror") /\
  powerup h' "sight"
    = (if 0 <? powerup h "sight" then powerup h "sight" - 1
       else powerup h "sight") /\
  powerup h' "dead" = powerup h "dead" + 1 /\
  stat h' "got_killed" = stat h "got_killed" + 1 /\
  weapon_confiscated h' = true /\
  experience h' = experience h - 17 /\
  bullets h' = bullets h - 1.
Proof.
  intros Hwf Hready h Hgate li h1 g1 Hlucky Hhoming r h'.
  pose proof (id_get_player db (author ctx) Hwf) as Hid. fold h in Hid.
  pose proof (bang_passed ctx target g db Hready Hgate) as Hr.
  fold r in Hr. cbv zeta in Hr. fold h li in Hr.
  pose proof (jam_roll_frame li h g) as Hjam.
  subst h1 g1. revert Hlucky Hr Hjam.
  destruct (jam_roll li h g) as [[lucky h1] g1]. cbn [fst snd].
  intros -> Hr [(Hid1 & Hx1 & Hb1 & _ & _ & _ & _ & Hst1 & _) Hp1].
  assert (Hidc : id (consume_bullet h1) = author ctx) by (rows; congruence).
  assert (Hhc : 1 <= powerup (consume_bullet h1) "homing_bullets").
  { rows. rewrite Hp1 by discriminate. exact Hhoming. }
  pose proof (fun g2 =>
    shot_resolution_homing ctx target li (consume_bullet h1) g2 db
      Hwf Hidc Hhc) as Hshot. cbv zeta in Hshot.
  pose proof (accuracy_roll_frame li (consume_bullet h1) g1) as Hacc.
  assert (Hpl : forall g2,
            snd (fst (accuracy_roll li (consume_bullet h1) g2))
            = snd (fst (accuracy_roll li (consume_bullet h1) g1)))
    by (intros; apply accuracy_roll_player).
  destruct (accuracy_roll li (consume_bullet h1) g1) as [[missed h2] g2].
  cbn [fst snd] in Hpl.
  destruct Hacc as (_ & (Hid2 & Hx2 & Hb2 & _ & _ & _ & _ & Hst2 & _)
                    & Hp2 & Hmir & Hsig).
  set (shot := experience_add (-2)
                 (stat_add "missed" 1
                    (stat_add "homing_kills" 1
                       (powerup_add "homing_bullets" (-1) h2)))).
  set (dead := mark_killed
                 (stat_add "murders" 1
                    (set_weapon_confiscated true
                       (experience_add (-15) (stat_add "killed" 1 shot))))).
  assert (Hrs : forall g3,
            shot_resolution ctx target li (consume_bullet h1) g3 db
            = mkResult HomingSelfKill (Some dead) (save dead db)
                (advance g3)).
  { intros g3. rewrite Hshot, Hpl. reflexivity. }
  clear Hshot Hpl. subst h'. rewrite Hr, Hrs. cbn [outcome hunter store rng].
  rewrite persisted_save by (subst dead shot; rows; congruence).
  split; [reflexivity|]. split; [reflexivity|].
  split; [subst dead shot; rows; items; rewrite Hp2, Hp1 by discriminate; lia|].
  split; [reflexivity|].
  split; [intros g3; rewrite Hrs; cbn [outcome hunter store rng]; tauto|].
  subst dead shot. rows. items. rewrite Hmir, Hsig. rows.
  rewrite !Hp1 by discriminate. rewrite Hp2 by discriminate.
  rewrite Hp1 by discriminate. rewrite Hst2, Hst1. items.
  repeat split; lia.
Qed.

Lemma shot_resolution_named ctx member li h g db :
  powerup h "homing_bullets" < 1 ->
  fst (fst (accuracy_roll li h g)) = false ->
  shot_resolution ctx (Some member) li h g db =
    killing ctx false (Some member) (snd (fst (accuracy_roll li h g)))
      (advance g) db.
Proof.
  intros Hhoming Hhit. unfold Hunting.shot_resolution.
  pose proof (accuracy_roll_frame li h g) as Hacc.
  destruct (accuracy_roll li h g) as [[missed h2] g2].
  destruct Hacc as (-> & _ & Hp2 & _). cbn [fst snd] in *. subst missed.
  assert (Hh2 : (1 <=? powerup h2 "homing_bullets") = false).
  { rewrite Hp2 by discriminate. apply Z.leb_gt. lia. }
  rewrite Hh2. rewrite bool_decide_eq_true_2 by eauto. reflexivity.
Qed.

(** C4, as the code has it.  When a target is named, the shot does not miss
    and no homing bullet is loaded, the named member is the victim (oneself:
    suicide), the victim's row gets one more death and one more "got killed",
    and the shooter's murder statistic goes up by one in every case, suicide
    included. *)
Theorem named_target_is_victim ctx member g db :
  store_wf db ->
  is_ready ctx = true ->
  let h := get_player db (author ctx) in
  weapon_condition_gate (now ctx) h = None ->
  let li := get_level_info (experience h) in
  let h1 := snd (fst (jam_roll li h g)) in
  let g1 := snd (jam_roll li h g) in
  fst (fst (jam_roll li h g)) = true ->
  powerup h "homing_bullets" < 1 ->
  fst (fst (accuracy_roll li (consume_bullet h1) g1)) = false ->
  let r := bang ctx (Some member) g db in
  let h' := persisted ctx (store r) in
  let victim := get_player db member in
  let victim' := get_player (store r) member in
  outcome r = (if member =? author ctx then Suicide else Murder member) /\
  stat h' "murders" = stat h "murders" + 1 /\
  powerup victim' "dead" = powerup victim "dead" + 1 /\
  stat victim' "got_killed" = stat victim "got_killed" + 1 /\
  weapon_confiscated h' = true /\
  experience h' = experience h - 15.
Proof.
  intros Hwf Hready h Hgate li h1 g1 Hlucky Hhoming Hhit r h' victim victim'.
  pose proof (id_get_player db (author ctx) Hwf) as Hid. fold h in Hid.
  pose proof (id_get_player db member Hwf) as Hidv. subst victim.
  pose proof (bang_passed ctx (Some member) g db Hready Hgate) as Hr.
  fold r in Hr. cbv zeta in Hr. fold h li in Hr.
  pose proof (jam_roll_frame li h g) as Hjam.
  subst h1 g1. revert Hlucky Hhit Hr Hjam.
  destruct (jam_roll li h g) as [[lucky h1] g1]. cbn [fst snd].
  intros -> Hhit Hr [(Hid1 & Hx1 & Hb1 & _ & _ & _ & _ & Hst1 & _) Hp1].
  assert (Hhc : powerup (consume_bullet h1) "homing_bullets" < 1).
  { rows. rewrite Hp1 by discriminate. exact Hhoming. }
  rewrite (shot_resolution_named _ _ _ _ _ _ Hhc Hhit) in Hr.
  pose proof (accuracy_roll_frame li (consume_bullet h1) g1) as Hacc.
  destruct (accuracy_roll li (consume_bullet h1) g1) as [[missed h2] g2].
  destruct Hacc as (_ & (Hid2 & Hx2 & Hb2 & _ & _ & _ & _ & Hst2 & _)
                    & Hp2 & _).
  cbn [fst snd] in Hr. subst h' victim'. rewrite Hr. clear Hr r.
  unfold Hunting.killing. rows.
  assert (Hida : id h2 = author ctx) by congruence.
  unfold Hunting.persisted.
  rewrite Hidv, Hida.
  destruct (Z.eqb_spec member (author ctx)) as [Heq|Hne]; rows.
  - subst member. rewrite Z.eqb_refl. cbn [negb].
    rewrite !get_player_save_id by (rows; assumption).
    fold h.
    rows. items. rewrite Hst2, Hst1. items. rewrite Hp2, Hp1 by discriminate.
    repeat split; lia.
  - rewrite Hidv, Hida. rewrite (proj2 (Z.eqb_neq _ _) Hne). cbn [negb].
    rewrite get_player_save_id by (rows; assumption).
    rewrite get_player_save_ne by (rows; congruence).
    rewrite get_player_save_id by (rows; assumption).
    rows. items. rewrite Hst2, Hst1. items.
    repeat split; lia.
Qed.

Lemma bang_plainly_jammed t ctx target g db :
  store_wf db ->
  plainly_jammed t (get_player db (author ctx)) ->
  t <= now ctx ->
  let r := bang ctx target g db in
  (outcome r = WeaponJammed \/ outcome r = NotReady) /\
  (is_ready ctx = true -> outcome r = WeaponJammed) /\
  store_wf (store r) /\
  plainly_jammed t (get_player (store r) (author ctx)).
Proof.
  intros Hwf (Hsab & Hjam & Hdead & Hwet & Hconf) Ht r. subst r.
  destruct (is_ready ctx) eqn:Hready.
  - assert (Hgate : weapon_condition_gate (now ctx)
                      (get_player db (author ctx))
                    = Some (WeaponJammed,
                            stat_add "shots_when_jammed" 1
                              (get_player db (author ctx)))).
    { unfold weapon_condition_gate.
      rewrite (proj2 (Z.ltb_ge _ _) Hdead).
      rewrite (proj2 (Z.ltb_ge _ _)) by lia.
      now rewrite Hconf, Hsab, Hjam. }
    rewrite (bang_blocked _ _ _ _ _ _ Hready Hgate). cbn [outcome store].
    split; [now left|]. split; [reflexivity|]. split; [now apply save_wf|].
    rewrite get_player_save_id by (rows; now apply id_get_player).
    unfold plainly_jammed. rows. tauto.
  - unfold Hunting.bang. rewrite Hready. cbn [negb outcome store].
    split; [now right|]. split; [discriminate|]. split; [assumption|].
    unfold plainly_jammed. tauto.
Qed.

(** C5.  The first shot attempt that reaches the sabotage check clears
    [weapon_sabotaged_by] and jams the weapon in one saved mutation, and
    every later attempt of the player (as long as only shots are attempted)
    finds a plainly jammed weapon: it is answered "jammed", never
    "sabotaged", and the reference stays cleared. *)
Theorem sabotage_single_use ctx target g db saboteur :
  store_wf db ->
  is_ready ctx = true ->
  let h := get_player db (author ctx) in
  weapon_sabotaged_by h = Some saboteur ->
  powerup h "dead" <= 0 ->
  powerup h "wet" <= now ctx ->
  weapon_confiscated h = false ->
  let r := bang ctx target g db in
  let h' := persisted ctx (store r) in
  outcome r = Sabotaged /\
  store r = save (stat_add "shots_when_sabotaged" 1
                    (set_weapon_jammed true
                       (set_weapon_sabotaged_by None h))) db /\
  weapon_sabotaged_by h' = None /\ weapon_jammed h' = true /\
  forall attempts g',
    Forall (fun a => author (fst a) = author ctx /\
                     now ctx <= now (fst a)) attempts ->
    let '(replies, db') := bangs attempts g' (store r) in
    length replies = length attempts /\
    Forall (fun reply => reply = WeaponJammed \/ reply = NotReady) replies /\
    Forall2 (fun a reply => is_ready (fst a) = true -> reply = WeaponJammed)
      attempts replies /\
    weapon_sabotaged_by (persisted ctx db') = None /\
    weapon_jammed (persisted ctx db') = true.
Proof.
  intros Hwf Hready h Hsab Hdead Hwet Hconf r h'.
  pose proof (id_get_player db (author ctx) Hwf) as Hid. fold h in Hid.
  assert (Hgate : weapon_condition_gate (now ctx) h
                  = Some (Sabotaged,
                          stat_add "shots_when_sabotaged" 1
                            (set_weapon_jammed true
                               (set_weapon_sabotaged_by None h)))).
  { unfold weapon_condition_gate.
    rewrite (proj2 (Z.ltb_ge _ _) Hdead), (proj2 (Z.ltb_ge _ _) Hwet).
    now rewrite Hconf, Hsab. }
  subst h' r. rewrite (bang_blocked _ _ _ _ _ _ Hready Hgate).
  cbn [outcome store].
  set (h' := stat_add "shots_when_sabotaged" 1
               (set_weapon_jammed true (set_weapon_sabotaged_by None h))).
  assert (Hp : persisted ctx (save h' db) = h')
    by (apply persisted_save; exact Hid).
  rewrite Hp.
  split; [reflexivity|]. split; [reflexivity|].
  split; [reflexivity|]. split; [reflexivity|].
  assert (Hinv : plainly_jammed (now ctx)
                   (get_player (save h' db) (author ctx))).
  { fold (persisted ctx (save h' db)). rewrite Hp. subst h'.
    unfold plainly_jammed. rows. tauto. }
  assert (Hwf' : store_wf (save h' db)) by now apply save_wf.
  clear Hp. generalize dependent (save h' db). clear - new_player_id.
  intros db0 Hinv Hwf attempts. revert db0 Hinv Hwf.
  induction attempts as [|[c t] rest IH]; intros db0 Hinv Hwf g' Hall.
  - cbn. repeat split; try constructor; apply Hinv.
  - inversion Hall as [|? ? [Hauth Hnow] Hrest]; subst. cbn [fst] in *.
    cbn [Hunting.bangs].
    rewrite <- Hauth in Hinv.
    destruct (bang_plainly_jammed _ c t g' db0 Hwf Hinv Hnow)
      as (Hone & Hrdy & Hwf1 & Hinv1).
    rewrite Hauth in Hinv1.
    specialize (IH _ Hinv1 Hwf1 (rng (bang c t g' db0)) Hrest).
    destruct (bangs rest (rng (bang c t g' db0)) (store (bang c t g' db0)))
      as [replies db'].
    destruct IH as (Hlen & Hall' & Hall2 & Hs & Hj).
    cbn [length]. repeat split; try assumption.
    + now rewrite Hlen.
    + constructor; assumption.
    + constructor; assumption.
Qed.

Lemma gate_reply_no_victim ctx now h reply hb :
  weapon_condition_gate now h = Some (reply, hb) ->
  victim_of ctx reply = None.
Proof.
  unfold weapon_condition_gate.
  destruct (0 <? powerup h "dead"); [now intros [= <- <-]|].
  destruct (now <? powerup h "wet"); [now intros [= <- <-]|].
  destruct (weapon_confiscated h); [now intros [= <- <-]|].
  destruct (weapon_sabotaged_by h); [now intros [= <- <-]|].
  destruct (weapon_jammed h); [now intros [= <- <-]|].
  destruct (bullets h <=? 0); [now intros [= <- <-]|discriminate].
Qed.

(** What a confirmed death leaves in the database.  The shooter's row has
    the weapon confiscated, one more kill and 15 experience less on top of
    the 2 of a miss or of a homing bullet; the victim's row has one more
    death and one more "got killed", except when the bystander picked at
    random is the shooter's own row. *)
Lemma confirmed_death_effects ctx target g db v :
  store_wf db ->
  let h := get_player db (author ctx) in
  let r := bang ctx target g db in
  let h' := persisted ctx (store r) in
  victim_of ctx (outcome r) = Some v ->
  weapon_confiscated h' = true /\
  stat h' "killed" = stat h "killed" + 1 /\
  experience h'
    = experience h
      - match outcome r with Suicide | Murder _ => 15 | _ => 17 end /\
  (outcome r <> BystanderKill (author ctx) ->
   powerup (get_player (store r) v) "dead"
     = powerup (get_player db v) "dead" + 1 /\
   stat (get_player (store r) v) "got_killed"
     = stat (get_player db v) "got_killed" + 1).
Proof.
  intros Hwf h r h' Hvictim.
  pose proof (id_get_player db (author ctx) Hwf) as Hid. fold h in Hid.
  destruct (is_ready ctx) eqn:Hready;
    [|unfold r, Hunting.bang in Hvictim; rewrite Hready in Hvictim;
      discriminate].
  destruct (weapon_condition_gate (now ctx) h) as [[reply hb]|] eqn:Hgate.
  { unfold r in Hvictim.
    rewrite (bang_blocked _ _ _ _ _ _ Hready Hgate) in Hvictim.
    cbn [outcome] in Hvictim.
    now rewrite (gate_reply_no_victim _ _ _ _ _ Hgate) in Hvictim. }
  pose proof (bang_passed ctx target g db Hready Hgate) as Hr.
  fold r in Hr. cbv zeta in Hr. fold h in Hr.
  set (li := get_level_info (experience h)) in *.
  pose proof (jam_roll_frame li h g) as Hjam.
  destruct (jam_roll li h g) as [[lucky h1] g1].
  destruct Hjam as [(Hid1 & Hx1 & Hb1 & _ & _ & _ & _ & Hst1 & _) Hp1].
  destruct lucky; [|rewrite Hr in Hvictim; discriminate].
  subst h'. revert Hvictim. rewrite Hr. clear Hr r.
  unfold Hunting.shot_resolution.
  pose proof (accuracy_roll_frame li (consume_bullet h1) g1) as Hacc.
  destruct (accuracy_roll li (consume_bullet h1) g1) as [[missed h2] g2].
  destruct Hacc as (_ & (Hid2 & Hx2 & Hb2 & _ & _ & _ & _ & Hst2 & _)
                    & Hp2 & _).
  rows.
  assert (Hida : id h2 = author ctx) by congruence.
  assert (Hx : experience h2 = experience h) by congruence.
  assert (Hst : forall k, k <> "bullets_used" ->
            item (shooting_stats h2) k = item (shooting_stats h) k).
  { intros k Hk. rewrite Hst2, Hst1. now items. }
  assert (Hdead : item (active_powerups h2) "dead"
                  = item (active_powerups h) "dead").
  { rewrite Hp2, Hp1 by discriminate. reflexivity. }
  clear Hid1 Hx1 Hb1 Hst1 Hp1 Hid2 Hx2 Hb2 Hst2 Hp2.
  unfold Hunting.killing, Hunting.clean_hit, get_random_player,
    Hunting.persisted.
  destruct target as [member|];
    repeat first
      [ progress (rows; rewrite ?(id_get_player _ _ Hwf), ?Hida, ?Z.eqb_refl;
                  cbn [negb])
      | break_if
      | match goal with
        | |- context [compute_luck ?p ?g] =>
            destruct (compute_luck p g) as [? ?]
        end ];
    cbn [victim_of]; try discriminate; intros [= <-].
  all: repeat match goal with
              | H : negb _ = true |- _ => apply negb_true_iff in H
              | H : negb _ = false |- _ => apply negb_false_iff in H
              | H : (_ =? _) = true |- _ => apply Z.eqb_eq in H
              | H : (_ =? _) = false |- _ => apply Z.eqb_neq in H
              end.
  all: repeat first
         [ rewrite get_player_save_id
             by (rows; rewrite ?(id_get_player _ _ Hwf); congruence)
         | rewrite get_player_save_ne
             by (rows; rewrite ?(id_get_player _ _ Hwf); congruence) ].
  all: rows; items; rewrite ?Hst by discriminate; rewrite ?Hx.
  all: try (exfalso; congruence).
  all: fold h; rewrite ?Hdead.
  all: repeat split; try lia; try reflexivity.
  all: try (exfalso; congruence).
  all: assert (Hother : random_player ctx <> author ctx) by congruence.
  all: try (exfalso; congruence).
  all: repeat first
         [ rewrite get_player_save_id
             by (rows; rewrite ?(id_get_player _ _ Hwf); congruence)
         | rewrite get_player_save_ne
             by (rows; rewrite ?(id_get_player _ _ Hwf); congruence) ].
  all: rows; items; reflexivity.
Qed.

End Properties.

(** ** The commands on the small configuration *)

Lemma example_new_player_id member : id (example_new_player member) = member.
Proof. reflexivity. Qed.

Lemma store_wf_singleton p : store_wf {[ id p := p ]}.
Proof. unfold store_wf. now apply map_Forall_singleton. Qed.

(** The specification's scenario: experience 0, one bullet, no powerup; the
    jam roll succeeds, the accuracy roll fails, the kill-on-miss roll fails.
    The shot hits a tree, costs 2 experience and the bullet. *)
Example missed_hit_a_tree :
  let r := example_bang (example_ctx 1) None (tape [0; 99; 99]) lone_db in
  outcome r = MissedTree /\
  experience (example_row (example_ctx 1) (store r)) = -2 /\
  bullets (example_row (example_ctx 1) (store r)) = 0 /\
  cursor (rng r) = 3%nat.
Proof. vm_compute. repeat split; reflexivity. Qed.

(** A mirror halves an accuracy of 50 to 25 and a sight then adds a third of
    the 75 missing: 50 again, one charge of each spent. *)
Example aim_through_mirror_and_sight :
  let '(accuracy, h) :=
    aim (example_level_info 0) (example_row (example_ctx 1) homing_db) in
  (accuracy == 50)%Q /\ powerup h "mirror" = 0 /\ powerup h "sight" = 0.
Proof. vm_compute. repeat split; reflexivity. Qed.

(** A named target is only shot when the roll lands: on a miss the shot
    goes on as if at a duck. *)
Example named_target_missed :
  let r := example_bang (example_ctx 1) (Some 2) (tape [0; 99]) lone_db in
  outcome r = NoDuck /\
  store r !! 2 = None /\
  experience (example_row (example_ctx 1) (store r)) = -2.
Proof. vm_compute. repeat split; reflexivity. Qed.

Lemma compute_luck_threshold_witness :
  fst (compute_luck 0 (tape [41])) = false /\
  fst (compute_luck 100 (tape [41])) = true.
Proof.
  destruct (compute_luck_threshold 0 (tape [41])) as (_ & _ & _ & Hlow & _).
  destruct (compute_luck_threshold 100 (tape [41])) as (_ & _ & _ & _ & Hhigh).
  split; [apply Hlow | apply Hhigh]; apply Qle_refl.
Defined.

Lemma gate_order_witness :
  outcome (example_bang (example_ctx 1) None (tape []) dead_db) = ShooterDead.
Proof.
  destruct (gate_order example_level_info example_powerup_active
              example_new_player (example_ctx 1) None (tape []) dead_db)
    as (_ & _ & Hdead).
  apply Hdead; [reflexivity | discriminate | reflexivity].
Defined.

Lemma reload_without_magazines_witness :
  let '(reply, returned, db') := example_reload (example_ctx 1) spent_db in
  reply = NoMagazines /\ returned = Some false /\
  bullets (example_row (example_ctx 1) db') = 0 /\
  magazines (example_row (example_ctx 1) db') = 0.
Proof.
  pose proof (reload_without_magazines example_level_info example_new_player
                example_new_player_id (example_ctx 1) spent_db
                (store_wf_singleton _) eq_refl eq_refl eq_refl eq_refl) as H.
  unfold example_reload, example_row.
  destruct (Hunting.reload _ _ _ _) as [[reply returned] db'].
  destruct H as (Hreply & Hreturned & _ & Hbullets & Hmagazines & _).
  repeat split; assumption.
Defined.

Lemma bullet_accounting_witness :
  let r := example_bang (example_ctx 1) None (tape [0; 99; 99]) lone_db in
  r = Hunting.shot_resolution example_new_player (example_ctx 1) None
        (example_level_info 0) (consume_bullet lone_hunter)
        (advance (tape [0; 99; 99])) lone_db /\
  bullets (example_row (example_ctx 1) (store r))
    = (if decide (outcome r = DetectorStopped) then 1 else 1 - 1).
Proof.
  pose proof (bullet_accounting example_level_info example_powerup_active
                example_new_player example_new_player_id (example_ctx 1)
                None (tape [0; 99; 99]) lone_db
                (store_wf_singleton _) eq_refl eq_refl) as H.
  cbv zeta in H.
  change (Hunting.jam_roll example_powerup_active
            (example_level_info
               (experience
                  (Hunting.get_player example_new_player lone_db
                     (author (example_ctx 1)))))
            (Hunting.get_player example_new_player lone_db
               (author (example_ctx 1)))
            (tape [0; 99; 99]))
    with (true, lone_hunter, advance (tape [0; 99; 99])) in H.
  destruct H as (_ & Hres & Hbullets).
  split; [exact Hres | exact Hbullets].
Defined.

Lemma detector_refund_witness :
  let r := example_bang (example_ctx 1) None (tape [0; 0]) detector_db in
  outcome r = DetectorStopped /\
  powerup (example_row (example_ctx 1) (store r)) "detector" = 0 /\
  bullets (example_row (example_ctx 1) (store r)) = 1.
Proof.
  destruct (detector_refund example_level_info example_powerup_active
              example_new_player example_new_player_id (example_ctx 1)
              None (tape [0; 0]) detector_db
              (store_wf_singleton _) eq_refl eq_refl eq_refl)
    as (Hreply & Hdetector & Hbullets & _).
  repeat split; assumption.
Defined.

Lemma homing_self_kill_witness :
  let r := example_bang (example_ctx 1) (Some 2) (tape [0; 0]) homing_db in
  outcome r = HomingSelfKill /\
  powerup (example_row (example_ctx 1) (store r)) "dead" = 0 + 1 /\
  weapon_confiscated (example_row (example_ctx 1) (store r)) = true /\
  experience (example_row (example_ctx 1) (store r)) = 0 - 17.
Proof.
  destruct (homing_self_kill example_level_info example_powerup_active
              example_new_player example_new_player_id (example_ctx 1)
              (Some 2) (tape [0; 0]) homing_db
              (store_wf_singleton _) eq_refl eq_refl eq_refl
              ltac:(vm_compute; discriminate))
    as (Hreply & _ & _ & _ & _ & _ & _ & Hdead & _ & Hconf & Hexp & _).
  repeat split; assumption.
Defined.

Lemma named_target_is_victim_witness :
  let r := example_bang (example_ctx 1) (Some 1) (tape [0; 0]) lone_db in
  outcome r = Suicide /\
  stat (example_row (example_ctx 1) (store r)) "murders" = 0 + 1.
Proof.
  destruct (named_target_is_victim example_level_info example_powerup_active
              example_new_player example_new_player_id (example_ctx 1)
              1 (tape [0; 0]) lone_db
              (store_wf_singleton _) eq_refl eq_refl eq_refl
              ltac:(vm_compute; reflexivity) eq_refl)
    as (Hreply & Hmurders & _).
  split; assumption.
Defined.

Lemma sabotage_single_use_witness :
  let r := example_bang (example_ctx 1) None (tape []) sabotaged_db in
  outcome r = Sabotaged /\
  weapon_sabotaged_by (example_row (example_ctx 1) (store r)) = None /\
  weapon_jammed (example_row (example_ctx 1) (store r)) = true /\
  fst (Hunting.bangs example_level_info example_powerup_active
         example_new_player
         [(example_ctx 1, None); (example_ctx 1, Some 2)]
         (tape []) (store r))
    = [WeaponJammed; WeaponJammed].
Proof.
  destruct (sabotage_single_use example_level_info example_powerup_active
              example_new_player example_new_player_id (example_ctx 1)
              None (tape []) sabotaged_db 2
              (store_wf_singleton _) eq_refl eq_refl
              ltac:(vm_compute; discriminate)
              ltac:(vm_compute; discriminate) eq_refl)
    as (Hreply & _ & Hsab & Hjam & Hlater).
  split; [exact Hreply|]. split; [exact Hsab|]. split; [exact Hjam|].
  assert (Hatt : Forall (fun a : Ctx * option Z =>
                           author (fst a) = author (example_ctx 1) /\
                           now (example_ctx 1) <= now (fst a))
                   [(example_ctx 1, None); (example_ctx 1, Some 2)])
    by (repeat constructor; discriminate).
  specialize (Hlater _ (tape []) Hatt).
  destruct (Hunting.bangs _ _ _ _ _ _) as [replies db'].
  destruct Hlater as (_ & _ & Hready & _).
  inversion Hready as [|? r1 ? rest1 H1 Hrest]; subst.
  inversion Hrest as [|? r2 ? rest2 H2 Hnil]; subst.
  inversion Hnil; subst. cbn [fst].
  now rewrite (H1 eq_refl), (H2 eq_refl).
Defined.

(** C4, as stated, fails: the lone player names themself, the shot lands,
    the reply is "suicide", and the murder statistic goes from 0 to 1. *)
Lemma suicide_counts_as_murder :
  let r := example_bang (example_ctx 1) (Some 1) (tape [0; 0]) lone_db in
  outcome r = Suicide /\
  stat lone_hunter "murders" = 0 /\
  stat (example_row (example_ctx 1) (store r)) "murders" = 1.
Proof. vm_compute. repeat split; reflexivity. Qed.

(** C3 at the failing input: the lone player misses, the kill-on-miss roll
    succeeds and the bystander picked in the channel is the shooter's own
    row.  The shooter is reported killed, loses 17 experience and the
    weapon, but the row saved keeps its death counter and its "got killed"
    statistic at 0. *)
Lemma bystander_self_kill_not_saved :
  let r := example_bang (example_ctx 1) None (tape [0; 99; 0]) lone_db in
  let h' := example_row (example_ctx 1) (store r) in
  outcome r = BystanderKill 1 /\
  weapon_confiscated h' = true /\ experience h' = -17 /\
  powerup lone_hunter "dead" = 0 /\ powerup h' "dead" = 0 /\
  stat lone_hunter "got_killed" = 0 /\ stat h' "got_killed" = 0.
Proof. vm_compute. repeat split; reflexivity. Qed.

(** ** Further properties of the commands

    When a duck is shot or hugged, the command hands over to [duck.shoot] or
    [duck.hug], which belong to the duck: the properties speak of the
    command's own part, up to that call. *)

(** Projections through all the setters of a row. *)
Ltac rows2 :=
  unfold powerup, stat in *;
  cbn [id experience bullets magazines weapon_confiscated weapon_jammed
       weapon_sabotaged_by active_powerups shooting_stats hugged
       set_experience set_bullets set_magazines set_weapon_confiscated
       set_weapon_jammed set_weapon_sabotaged_by set_active_powerups
       set_shooting_stats set_hugged experience_add bullets_add
       magazines_add powerup_add stat_add powerup_set stat_set hugged_add
       consume_bullet mark_killed deref outcome hunter store rng
       fst snd] in *.

Lemma item_insert_eq k v m : item (<[k := v]> m) k = v.
Proof. unfold item. now rewrite lookup_insert_eq. Qed.

Lemma item_insert_ne k k' v m : k <> k' -> item (<[k := v]> m) k' = item m k'.
Proof. intros Hne. unfold item. now rewrite lookup_insert_ne. Qed.

Ltac items2 :=
  repeat first [ rewrite item_add_eq
               | rewrite item_insert_eq
               | rewrite item_add_ne by (discriminate || congruence)
               | rewrite item_insert_ne by (discriminate || congruence) ].

Ltac eqbs :=
  repeat match goal with
    | H : negb _ = true |- _ => apply negb_true_iff in H
    | H : negb _ = false |- _ => apply negb_false_iff in H
    | H : (_ =? _) = true |- _ => apply Z.eqb_eq in H
    | H : (_ =? _) = false |- _ => apply Z.eqb_neq in H
    | H : (_ <? _) = true |- _ => apply Z.ltb_lt in H
    | H : (_ <? _) = false |- _ => apply Z.ltb_ge in H
    | H : (_ <=? _) = true |- _ => apply Z.leb_le in H
    | H : (_ <=? _) = false |- _ => apply Z.leb_gt in H
    end.

Lemma save_ok p db : row_ok p -> store_ok db -> store_ok (save p db).
Proof. intros Hp Hdb. unfold store_ok, save. now apply map_Forall_insert_2. Qed.

Lemma compute_luck_rng p g : snd (compute_luck p g) = advance g.
Proof. reflexivity. Qed.

Lemma jam_roll_more a li h g :
  let '(lucky, h', g') := Hunting.jam_roll a li h g in
  entropy g' = entropy g /\
  (cursor g < cursor g' <= cursor g + 2)%nat /\
  spent_at_most_one (powerup h "sand") (powerup h' "sand").
Proof.
  unfold Hunting.jam_roll, spent_at_most_one, compute_luck, randint.
  repeat break_if; eqbs; rows2; items2; cbn [entropy cursor advance];
    repeat split; lia.
Qed.

Lemma named_target {A} (x : A) : bool_decide (is_Some (Some x)) = true.
Proof. reflexivity. Qed.

Lemma no_target {A} : bool_decide (is_Some (@None A)) = false.
Proof. reflexivity. Qed.

Section MoreProperties.

Variable get_level_info : Z -> LevelInfo.
Variable is_powerup_active : Player -> string -> bool.
Variable new_player : Z -> Player.
Hypothesis new_player_id : forall member, id (new_player member) = member.

Local Abbreviation get_player := (Hunting.get_player new_player).
Local Abbreviation bang :=
  (Hunting.bang get_level_info is_powerup_active new_player).
Local Abbreviation reload := (Hunting.reload get_level_info new_player).
Local Abbreviation revive := (Hunting.revive new_player).
Local Abbreviation hug := (Hunting.hug new_player).
Local Abbreviation jam_roll := (Hunting.jam_roll is_powerup_active).
Local Abbreviation row_id := (id_get_player new_player new_player_id).
Local Abbreviation row_saved := (get_player_save_id new_player).
Local Abbreviation row_kept := (get_player_save_ne new_player).

Lemma save_other p db member :
  id p <> member -> save p db !! member = db !! member.
Proof. intros Hne. unfold save. now rewrite lookup_insert_ne. Qed.

(** The paths of [bang]: the goal is split along every test of the source;
    the rows after the jam roll and after the accuracy roll are kept as
    variables, with what the rolls may have changed of them. *)
Ltac bang_step :=
  first
    [ progress (rows2; rewrite ?row_id by assumption;
                rewrite ?Z.eqb_refl, ?named_target, ?no_target;
                cbn [negb andb orb])
    | match goal with
      | H : id ?x = _ |- context [id ?x] => rewrite H
      | |- context [Hunting.jam_roll ?a ?li ?x ?g] =>
          let Hj := fresh "Hjam" in
          pose proof (jam_roll_frame a li x g) as Hj;
          let Hm := fresh "Hmore" in
          pose proof (jam_roll_more a li x g) as Hm;
          destruct (Hunting.jam_roll a li x g) as [[? ?h1] ?g1];
          destruct Hj as [(?Hid1 & ?Hx1 & ?Hb1 & ?Hm1 & ?Hc1 & ?Hj1 & ?Hs1
                           & ?Hst1 & ?Hh1) ?Hp1];
          destruct Hm as (?Hent1 & ?Hcur1 & ?Hsand1)
      | |- context [accuracy_roll ?li ?x ?g] =>
          let Ha := fresh "Hacc" in
          pose proof (accuracy_roll_frame (fun _ _ => true) li x g) as Ha;
          destruct (accuracy_roll li x g) as [[? ?h2] ?g2];
          destruct Ha as (?Hg2 & (?Hid2 & ?Hx2 & ?Hb2 & ?Hm2 & ?Hc2 & ?Hj2
                          & ?Hs2 & ?Hst2 & ?Hh2) & ?Hp2 & ?Hmir & ?Hsig)
      | |- context [match weapon_sabotaged_by ?h with _ => _ end] =>
          destruct (weapon_sabotaged_by h) eqn:?
      | |- context [compute_luck ?p ?g] =>
          destruct (compute_luck p g) as [? ?] eqn:?
      end
    | break_if
    | progress unfold Hunting.shot_resolution
    | progress unfold Hunting.killing, Hunting.clean_hit, get_random_player ].

Ltac bang_paths :=
  match goal with
  | |- context [Hunting.bang ?a ?b ?c ?ctx ?t ?g ?db] =>
      pattern (Hunting.bang a b c ctx t g db)
  end;
  let Q := fresh "Q" in
  match goal with |- ?P _ => set (Q := P) end;
  unfold Hunting.bang, weapon_condition_gate;
  repeat bang_step;
  match goal with Q := _ |- _ => subst Q end; cbv beta.

Ltac absurd_branch :=
  try match goal with
      | H : (_ || _) = _ |- _ =>
          rewrite ?named_target, ?no_target in H;
          cbn [negb andb orb] in H; discriminate H
      end.

Ltac saved Hwf :=
  rows2;
  repeat first
    [ rewrite row_saved by (rows2; rewrite ?row_id by assumption; congruence)
    | rewrite row_kept by (rows2; rewrite ?row_id by assumption; congruence) ].

Ltac split_charges :=
  repeat match goal with
    | H : context [if ?b then _ else _] |- _ => destruct b eqn:?
    end;
  eqbs.

Lemma get_player_ok db member :
  store_ok db -> (forall m, row_ok (new_player m)) ->
  row_ok (get_player db member).
Proof.
  intros Hdb Hnew. unfold Hunting.get_player.
  destruct (db !! member) as [p|] eqn:E; cbn; [exact (Hdb _ _ E)|apply Hnew].
Qed.

(** X1 ([revive]).  Reviving a dead hunter eats all the brains at once: the
    reply carries the whole "dead" counter, the counter is 0 afterwards
    however many deaths were stacked, [revives] grows by one, [brains_eaten]
    by the counter, and [max_brains_eaten_at_once] is raised to it.
    Bullets, magazines, experience, confiscation, jamming and the other
    powerups are untouched, no other row is written, and a second [revive]
    answers that the hunter is alive. *)
Theorem revive_clears_all_deaths ctx db :
  store_wf db ->
  let h := get_player db (author ctx) in
  powerup h "dead" <> 0 ->
  let '(reply, db') := revive ctx db in
  let h' := get_player db' (author ctx) in
  reply = Revived (powerup h "dead") /\
  powerup h' "dead" = 0 /\
  stat h' "revives" = stat h "revives" + 1 /\
  stat h' "brains_eaten" = stat h "brains_eaten" + powerup h "dead" /\
  stat h' "max_brains_eaten_at_once"
    = Z.max (stat h "max_brains_eaten_at_once") (powerup h "dead") /\
  (forall k, k <> "dead" -> powerup h' k = powerup h k) /\
  bullets h' = bullets h /\ magazines h' = magazines h /\
  experience h' = experience h /\
  weapon_confiscated h' = weapon_confiscated h /\
  weapon_jammed h' = weapon_jammed h /\
  fst (revive ctx db') = AlreadyAlive /\
  (forall member, member <> author ctx -> db' !! member = db !! member).
Proof.
  intros Hwf h Hdead. unfold Hunting.revive at 1. fold h.
  destruct (Z.eqb_spec (powerup h "dead") 0) as [|_]; [contradiction|].
  pose proof (row_id db (author ctx) Hwf) as Hid. fold h in Hid.
  set (h' := stat_set _ _ _).
  assert (Hrow : get_player (save h' db) (author ctx) = h')
    by (apply row_saved; exact Hid).
  rewrite Hrow.
  assert (Hzero : powerup h' "dead" = 0) by (subst h'; rows2; now items2).
  repeat split; try (subst h'; rows2; items2; reflexivity).
  - intros k Hk. subst h'. rows2. now items2.
  - unfold Hunting.revive. rewrite Hrow, Hzero. reflexivity.
  - intros member Hne. apply save_other. subst h'. rows2. congruence.
Qed.

(** X6 ([bang]).  The shooter's row after any shot, read off the reply alone:
    the experience lost is 0, 2, 15 or 17, at most one bullet is spent and
    only if there was one, magazines and hugs are untouched, the weapon is
    confiscated exactly by the replies that report a death, it is jammed
    anew only by a sabotage or a failed jam roll, and the saboteur is
    forgotten only by the sabotage going off. *)
Theorem bang_shooter_row ctx target g db :
  store_wf db ->
  let h := get_player db (author ctx) in
  let r := bang ctx target g db in
  let h' := get_player (store r) (author ctx) in
  experience h' = experience h - experience_lost (outcome r) /\
  bullets h' = bullets h - bullets_spent (outcome r) /\
  0 <= bullets_spent (outcome r) <= Z.max 0 (bullets h) /\
  magazines h' = magazines h /\
  hugged h' = hugged h /\
  weapon_confiscated h'
    = (if victim_of ctx (outcome r) is Some _ then true
       else weapon_confiscated h) /\
  weapon_jammed h'
    = (match outcome r with
       | Sabotaged | JamRollFailed => true
       | _ => weapon_jammed h
       end) /\
  weapon_sabotaged_by h'
    = (match outcome r with
       | Sabotaged => None
       | _ => weapon_sabotaged_by h
       end).
Proof.
  intros Hwf h r h'. subst r h'.
  pose proof (row_id db (author ctx) Hwf) as Hid. fold h in Hid.
  subst h.
  bang_paths.
  all: absurd_branch.
  all: eqbs.
  all: saved Hwf.
  all: rows2; cbn [experience_lost bullets_spent victim_of].
  all: repeat split; try congruence; try lia.
Qed.

(** X7 ([bang]).  One shot spends at most one charge of sand, mirror, sight,
    homing bullets and detector, and only a charge that is there; it adds at
    most one death to the shooter; every other powerup of the shooter is
    left as it was. *)
Theorem bang_powerups ctx target g db :
  store_wf db ->
  let h := get_player db (author ctx) in
  let r := bang ctx target g db in
  let h' := get_player (store r) (author ctx) in
  spent_at_most_one (powerup h "sand") (powerup h' "sand") /\
  spent_at_most_one (powerup h "mirror") (powerup h' "mirror") /\
  spent_at_most_one (powerup h "sight") (powerup h' "sight") /\
  spent_at_most_one (powerup h "homing_bullets")
    (powerup h' "homing_bullets") /\
  spent_at_most_one (powerup h "detector") (powerup h' "detector") /\
  (powerup h' "dead" = powerup h "dead" \/
   powerup h' "dead" = powerup h "dead" + 1) /\
  (forall k,
     k <> "sand" -> k <> "mirror" -> k <> "sight" ->
     k <> "homing_bullets" -> k <> "detector" -> k <> "dead" ->
     powerup h' k = powerup h k).
Proof.
  intros Hwf h r h'. subst r h' h. unfold spent_at_most_one.
  pose proof (row_id db (author ctx) Hwf) as Hid.
  bang_paths.
  all: absurd_branch.
  all: eqbs.
  all: saved Hwf.
  all: rows2; items2.
  all: unfold spent_at_most_one in *; rows2.
  all: try (pose proof (Hp2 "sand" ltac:(discriminate) ltac:(discriminate)));
       try (pose proof (Hp1 "mirror" ltac:(discriminate)));
       try (pose proof (Hp1 "sight" ltac:(discriminate)));
       try (pose proof (Hp1 "homing_bullets" ltac:(discriminate)));
       try (pose proof (Hp1 "detector" ltac:(discriminate)));
       try (pose proof (Hp1 "dead" ltac:(discriminate)));
       try (pose proof (Hp2 "homing_bullets" ltac:(discriminate)
                          ltac:(discriminate)));
       try (pose proof (Hp2 "detector" ltac:(discriminate)
                          ltac:(discriminate)));
       try (pose proof (Hp2 "dead" ltac:(discriminate) ltac:(discriminate))).
  all: split_charges; rows2.
  all: repeat split; try lia.
  all: intros k ? ? ? ? ? ?; items2;
       rewrite ?Hp2 by assumption; rewrite ?Hp1 by assumption; reflexivity.
Qed.

(** X8 ([bang]).  The random source: a shot never rewrites the entropy and
    draws at most four numbers; a blocked shot draws none, any other draws
    at least one, a failed jam roll at most two, a shot that goes on at
    least two, and a shot at a named player at most three. *)
Theorem bang_draws ctx target g db :
  let r := bang ctx target g db in
  entropy (rng r) = entropy g /\
  (cursor g <= cursor (rng r) <= cursor g + 4)%nat /\
  (is_blocked (outcome r) = true -> rng r = g) /\
  (is_blocked (outcome r) = false ->
   (cursor g < cursor (rng r))%nat) /\
  (outcome r = JamRollFailed -> (cursor (rng r) <= cursor g + 2)%nat) /\
  (is_blocked (outcome r) = false -> outcome r <> JamRollFailed ->
   (cursor g + 2 <= cursor (rng r))%nat) /\
  (is_Some target -> (cursor (rng r) <= cursor g + 3)%nat).
Proof.
  intros r. subst r.
  bang_paths.
  all: absurd_branch.
  all: rows2; cbn [is_blocked].
  all: repeat match goal with
         | H : compute_luck ?p ?g = (_, ?g') |- _ =>
             let E := fresh "Hdraw" in
             assert (E : g' = advance g)
               by (rewrite <- (compute_luck_rng p g), H; reflexivity);
             clear H; subst g'
         end.
  all: subst; cbn [entropy cursor advance].
  all: repeat split; try discriminate; try congruence; try lia;
       intros; try discriminate; try congruence; try lia.
  all: try match goal with H : is_Some None |- _ => destruct H; discriminate end.
Qed.

(** X9 ([bang]).  A shot writes the shooter's row and at most the victim's:
    every other row of the channel is left as it was (a row not yet in the
    database is not created), the rows stay filed under their own ids, and a
    victim other than the shooter is saved with one death and one
    [got_killed] more. *)
Theorem bang_writes_two_rows ctx target g db :
  store_wf db ->
  let r := bang ctx target g db in
  store_wf (store r) /\
  (forall member,
     member <> author ctx -> victim_of ctx (outcome r) <> Some member ->
     store r !! member = db !! member) /\
  (forall victim,
     victim_of ctx (outcome r) = Some victim -> victim <> author ctx ->
     get_player (store r) victim = mark_killed (get_player db victim)).
Proof.
  intros Hwf r. subst r.
  pose proof (row_id db (author ctx) Hwf) as Hid.
  bang_paths.
  all: absurd_branch.
  all: eqbs.
  all: cbn [outcome store victim_of].
  all: split; [repeat apply save_wf; exact Hwf|].
  all: split;
       [ intros member Hme Hvi;
         rewrite ?save_other
           by (rows2; rewrite ?row_id by assumption; congruence);
         reflexivity
       | intros victim Hvi Hne; try discriminate Hvi;
         try (injection Hvi as <-); try congruence;
         saved Hwf; reflexivity ].
Qed.

(** X11 ([bang], [reload], [hug], [revive]).  No command drives a counter
    below zero: if bullets, magazines and the counted powerups of every row
    are non-negative, and so are those of a new row and the levels'
    capacities, they still are after any of the four commands. *)
Theorem commands_keep_rows_ok ctx target g db :
  store_ok db ->
  (forall member, row_ok (new_player member)) ->
  (forall xp, 0 <= lv_bullets (get_level_info xp)) ->
  store_ok (store (bang ctx target g db)) /\
  store_ok (snd (reload ctx db)) /\
  store_ok (snd (revive ctx db)) /\
  store_ok (snd (hug ctx target db)).
Proof.
  intros Hdb Hnew Hcap.
  assert (Hrow : forall member, row_ok (get_player db member))
    by (intros; now apply get_player_ok).
  split; [|split; [|split]].
  - pose proof (Hrow (author ctx)) as Hme.
    pose proof (Hrow (random_player ctx)) as Hby.
    assert (Htg : forall m, target = Some m -> row_ok (get_player db m))
      by (intros; apply Hrow).
    bang_paths.
    all: absurd_branch.
    all: eqbs.
    all: cbn [store].
    all: try specialize (Htg _ eq_refl).
    all: repeat (apply save_ok; [|try exact Hdb]); try exact Hdb.
    all: unfold row_ok, spent_at_most_one in *; rows2; items2.
    all: try (pose proof (Hp2 "sand" ltac:(discriminate) ltac:(discriminate)));
         try (pose proof (Hp1 "mirror" ltac:(discriminate)));
         try (pose proof (Hp1 "sight" ltac:(discriminate)));
         try (pose proof (Hp1 "homing_bullets" ltac:(discriminate)));
         try (pose proof (Hp1 "detector" ltac:(discriminate)));
         try (pose proof (Hp1 "dead" ltac:(discriminate)));
         try (pose proof (Hp2 "homing_bullets" ltac:(discriminate)
                            ltac:(discriminate)));
         try (pose proof (Hp2 "detector" ltac:(discriminate)
                            ltac:(discriminate)));
         try (pose proof (Hp2 "dead" ltac:(discriminate)
                            ltac:(discriminate))).
    all: split_charges; rows2.
    all: repeat split; lia.
  - pose proof (Hrow (author ctx)) as Hme.
    specialize (Hcap (experience (get_player db (author ctx)))).
    unfold Hunting.reload.
    repeat break_if; eqbs; cbn [snd]; try exact Hdb;
      apply save_ok; try exact Hdb;
      unfold row_ok in *; rows2; items2; repeat split; lia.
  - pose proof (Hrow (author ctx)) as Hme.
    unfold Hunting.revive.
    repeat break_if; eqbs; cbn [snd]; try exact Hdb;
      apply save_ok; try exact Hdb;
      unfold row_ok in *; rows2; items2; repeat split; lia.
  - pose proof (Hrow (author ctx)) as Hme.
    unfold Hunting.hug.
    destruct target; repeat break_if; eqbs; cbn [snd]; try exact Hdb;
      apply save_ok; try exact Hdb;
      unfold row_ok in *; rows2; items2; repeat split; lia.
Qed.


(** X4 ([reload]).  What [reload] writes: experience, powerups, hugs,
    confiscation and sabotage are never touched; the weapon ends unjammed
    unless it is confiscated; only the reply "reloaded" takes a magazine,
    exactly one, and fills the bullets to the level's capacity; no other row
    is written. *)
Theorem reload_effects ctx db :
  store_wf db ->
  let h := get_player db (author ctx) in
  let '(reply, returned, db') := reload ctx db in
  let h' := get_player db' (author ctx) in
  experience h' = experience h /\
  active_powerups h' = active_powerups h /\
  hugged h' = hugged h /\
  weapon_confiscated h' = weapon_confiscated h /\
  weapon_sabotaged_by h' = weapon_sabotaged_by h /\
  weapon_jammed h' = (if weapon_confiscated h then weapon_jammed h
                      else false) /\
  magazines h'
    = magazines h - (if reply is Reloaded then 1 else 0) /\
  bullets h'
    = (if reply is Reloaded
       then lv_bullets (get_level_info (experience h))
       else bullets h) /\
  store_wf db' /\
  (forall member, member <> author ctx -> db' !! member = db !! member).
Proof.
  intros Hwf h.
  pose proof (row_id db (author ctx) Hwf) as Hid. fold h in Hid.
  unfold Hunting.reload. fold h.
  repeat break_if; saved Hwf; rows2; fold h.
  all: repeat split; try congruence; try lia; try (now apply save_wf).
  all: intros member Hne; apply save_other; rows2; congruence.
Qed.

(** X5 ([reload]).  A jammed weapon with an empty magazine takes two reloads:
    the first only unjams (bullets and magazines as they were), the second
    spends one magazine and fills the weapon. *)
Theorem jammed_reload_takes_two ctx db :
  store_wf db ->
  let h := get_player db (author ctx) in
  weapon_confiscated h = false ->
  weapon_jammed h = true ->
  bullets h <= 0 ->
  1 <= magazines h ->
  let '(reply1, _, db1) := reload ctx db in
  let '(reply2, _, db2) := reload ctx db1 in
  reply1 = Unjammed /\
  bullets (get_player db1 (author ctx)) = bullets h /\
  magazines (get_player db1 (author ctx)) = magazines h /\
  reply2 = Reloaded /\
  bullets (get_player db2 (author ctx))
    = lv_bullets (get_level_info (experience h)) /\
  magazines (get_player db2 (author ctx)) = magazines h - 1 /\
  weapon_jammed (get_player db2 (author ctx)) = false.
Proof.
  intros Hwf h Hconf Hjam Hb Hm.
  pose proof (row_id db (author ctx) Hwf) as Hid. fold h in Hid.
  unfold Hunting.reload at 1. fold h. rewrite Hconf, Hjam.
  unfold Hunting.reload.
  rewrite row_saved by (rows2; exact Hid). rows2. rewrite Hconf.
  rewrite (proj2 (Z.leb_le _ _) Hb), (proj2 (Z.leb_le _ _) Hm). cbn [andb].
  rewrite row_saved by (rows2; exact Hid). rows2.
  repeat split; lia.
Qed.

(** X2 ([hug]).  A hug changes nothing of the hunter's row but one hug
    counter: "when_dead" for a dead hunter (whatever was hugged), "players"
    for a named member, "nothing" when no duck is there.  Before handing over
    to a duck, and when it is not ready, the command writes nothing; and it
    never writes another member's row. *)
Theorem hug_only_counts ctx target db :
  store_wf db ->
  let h := get_player db (author ctx) in
  let '(reply, db') := hug ctx target db in
  let h' := get_player db' (author ctx) in
  let counted :=
    match reply with
    | HugWhenDead => Some "when_dead"
    | HuggedPlayer _ => Some "players"
    | HuggedNothing => Some "nothing"
    | _ => None
    end in
  h' = match counted with
       | Some k => hugged_add k 1 h
       | None => h
       end /\
  (counted = None -> db' = db) /\
  (forall member, member <> author ctx -> db' !! member = db !! member) /\
  (is_ready ctx = true -> 0 < powerup h "dead" -> reply = HugWhenDead) /\
  (is_ready ctx = true -> powerup h "dead" <= 0 ->
   reply = match target with
           | Some member => HuggedPlayer member
           | None => if next_duck ctx then HuggedDuck else HuggedNothing
           end).
Proof.
  intros Hwf h.
  pose proof (row_id db (author ctx) Hwf) as Hid. fold h in Hid.
  unfold Hunting.hug. fold h.
  destruct target; repeat break_if; eqbs; saved Hwf; fold h.
  all: repeat split; try reflexivity; try discriminate; try lia;
       try congruence.
  all: try (intros member Hne; apply save_other; rows2; congruence).
  all: intros; lia.
Qed.

(** X12 ([bang], [reload]).  After a shot that jammed the weapon, every
    further shot of that hunter is refused as jammed, and one [reload]
    unjams it without touching bullets or magazines: the gate then lets the
    next shot through. *)
Theorem jam_then_reload ctx target g db :
  store_wf db ->
  let h := get_player db (author ctx) in
  let r := bang ctx target g db in
  outcome r = JamRollFailed ->
  forall ctx2 target2 g2,
    author ctx2 = author ctx -> is_ready ctx2 = true ->
    now ctx <= now ctx2 ->
    outcome (bang ctx2 target2 g2 (store r)) = WeaponJammed /\
    let '(reply, _, db') := reload ctx2 (store r) in
    let h' := get_player db' (author ctx) in
    reply = Unjammed /\
    bullets h' = bullets h /\ magazines h' = magazines h /\
    weapon_condition_gate (now ctx2) h' = None.
Proof.
  intros Hwf h r Hjam ctx2 target2 g2 Hauthor Hready Hnow.
  pose proof (row_id db (author ctx) Hwf) as Hid. fold h in Hid.
  assert (Hafter :
    let h1 := get_player (store r) (author ctx) in
    store_wf (store r) /\
    weapon_jammed h1 = true /\ weapon_confiscated h1 = false /\
    weapon_sabotaged_by h1 = None /\ powerup h1 "dead" <= 0 /\
    powerup h1 "wet" <= now ctx /\ 0 < bullets h1 /\
    bullets h1 = bullets h /\ magazines h1 = magazines h).
  { revert Hjam. subst r h.
    bang_paths.
    all: rows2; try discriminate; intros _.
    all: eqbs; saved Hwf; rows2.
    all: pose proof (Hp1 "dead" ltac:(discriminate));
         pose proof (Hp1 "wet" ltac:(discriminate)).
    all: repeat split; try (now apply save_wf); try congruence; try lia. }
  cbv zeta in Hafter.
  destruct Hafter as (Hwf1 & Hj & Hc & Hs & Hd & Hw & Hb0 & Hb & Hm).
  generalize dependent (store r). intros db1 Hwf1 Hj Hc Hs Hd Hw Hb0 Hb Hm.
  split.
  - apply (bang_plainly_jammed get_level_info is_powerup_active new_player
             new_player_id (now ctx) ctx2 target2 g2 db1 Hwf1);
      [rewrite Hauthor; unfold plainly_jammed; tauto | exact Hnow
      | exact Hready].
  - unfold Hunting.reload. rewrite Hauthor, Hc, Hj.
    rewrite row_saved
      by (rows2; apply (row_id db1 (author ctx) Hwf1)).
    unfold weapon_condition_gate. rows2.
    rewrite (proj2 (Z.ltb_ge _ _) Hd).
    rewrite (proj2 (Z.ltb_ge _ _)) by lia.
    rewrite Hc, Hs.
    rewrite (proj2 (Z.leb_gt _ _) Hb0).
    repeat split; assumption.
Qed.

(** X13 ([bang], [revive]).  A hunter who shot themselves is dead once and
    refused as dead; [revive] eats one brain, and the next shot is refused
    again, now because the weapon stays confiscated. *)
Theorem revive_keeps_confiscation ctx target g db :
  store_wf db ->
  let h := get_player db (author ctx) in
  let r := bang ctx target g db in
  0 <= powerup h "dead" ->
  outcome r = Suicide \/ outcome r = HomingSelfKill ->
  forall ctx2 target2 g2,
    author ctx2 = author ctx -> is_ready ctx2 = true ->
    now ctx <= now ctx2 ->
    outcome (bang ctx2 target2 g2 (store r)) = ShooterDead /\
    let '(reply, db') := revive ctx2 (store r) in
    reply = Revived 1 /\
    outcome (bang ctx2 target2 g2 db') = WeaponConfiscated.
Proof.
  intros Hwf h r Hdead Hself ctx2 target2 g2 Hauthor Hready Hnow.
  pose proof (row_id db (author ctx) Hwf) as Hid. fold h in Hid.
  assert (Hafter :
    let h1 := get_player (store r) (author ctx) in
    store_wf (store r) /\
    weapon_confiscated h1 = true /\ powerup h1 "dead" = 1 /\
    powerup h1 "wet" <= now ctx).
  { revert Hself Hdead. subst r h.
    bang_paths.
    all: absurd_branch.
    all: rows2; intros [Hself|Hself] Hdead; try discriminate Hself.
    all: eqbs; saved Hwf; rows2; items2.
    all: pose proof (Hp1 "dead" ltac:(discriminate));
         pose proof (Hp1 "wet" ltac:(discriminate));
         pose proof (Hp2 "dead" ltac:(discriminate) ltac:(discriminate));
         pose proof (Hp2 "wet" ltac:(discriminate) ltac:(discriminate)).
    all: rows2.
    all: repeat split; try (repeat apply save_wf; exact Hwf);
         try congruence; try lia. }
  cbv zeta in Hafter. destruct Hafter as (Hwf1 & Hc & Hd & Hw).
  generalize dependent (store r). intros db1 Hwf1 Hc Hd Hw.
  pose proof (row_id db1 (author ctx) Hwf1) as Hid1.
  split.
  - unfold Hunting.bang, weapon_condition_gate.
    rewrite Hready, Hauthor. cbn [negb].
    rewrite (proj2 (Z.ltb_lt 0 _)) by lia. reflexivity.
  - unfold Hunting.revive. rewrite Hauthor, Hd.
    cbn [Z.eqb]. split; [reflexivity|].
    unfold Hunting.bang, weapon_condition_gate.
    rewrite Hready, Hauthor. cbn [negb].
    rewrite row_saved by (rows2; exact Hid1).
    rows2. items2. cbn [Z.ltb Z.compare].
    rewrite (proj2 (Z.ltb_ge _ _)) by lia.
    rewrite Hc. reflexivity.
Qed.

(** X10 ([bang]).  A shot the gate blocks is counted once, under the
    statistic of the check that triggered, and changes nothing else of the
    shooter's row (but for the sabotage, which jams the weapon and forgets
    the saboteur); the saved row is the one returned, no number is drawn and
    no other row is written. *)
Theorem blocked_attempt_counts_once ctx target g db :
  store_wf db ->
  let h := get_player db (author ctx) in
  let r := bang ctx target g db in
  let h' := get_player (store r) (author ctx) in
  is_ready ctx = true ->
  is_blocked (outcome r) = true ->
  h' = stat_add (blocked_statistic (outcome r)) 1
         (if decide (outcome r = Sabotaged)
          then set_weapon_jammed true (set_weapon_sabotaged_by None h)
          else h) /\
  hunter r = Some h' /\
  rng r = g /\
  (forall member, member <> author ctx -> store r !! member = db !! member).
Proof.
  intros Hwf h r h' Hready. subst r h' h.
  pose proof (row_id db (author ctx) Hwf) as Hid.
  bang_paths.
  all: cbn [outcome is_blocked]; try discriminate; intros _.
  all: eqbs; try congruence.
  all: saved Hwf; cbn [blocked_statistic].
  all: repeat split; try reflexivity.
  all: intros member Hne; apply save_other; rows2; congruence.
Qed.

(** X14 ([bang], the jam roll).  On the same draws, a weapon with sand jams
    whenever the plain weapon does, and the plain one whenever the greased
    one does; grease is not used up by the roll, and sand loses exactly one
    charge. *)
Theorem grease_helps_sand_hurts li hg hp hs g :
  is_powerup_active hg "grease" = true ->
  is_powerup_active hp "grease" = false -> powerup hp "sand" <= 0 ->
  is_powerup_active hs "grease" = false -> 0 < powerup hs "sand" ->
  let lucky h := fst (fst (jam_roll li h g)) in
  let row h := snd (fst (jam_roll li h g)) in
  (lucky hs = true -> lucky hp = true) /\
  (lucky hp = true -> lucky hg = true) /\
  row hg = hg /\ row hp = hp /\ row hs = powerup_add "sand" (-1) hs.
Proof.
  intros Hg Hp Hp0 Hs Hs0 lucky row. subst lucky row.
  unfold Hunting.jam_roll. rewrite Hg, Hp, Hs.
  rewrite (proj2 (Z.ltb_ge 0 (powerup hp "sand")) Hp0).
  rewrite (proj2 (Z.ltb_lt 0 (powerup hs "sand")) Hs0).
  destruct (compute_luck (inject_Z (lv_reliability li)) g) as [first g1].
  destruct (compute_luck (inject_Z (lv_reliability li)) g1) as [second g2].
  destruct first; cbn [fst snd]; repeat split; auto; discriminate.
Qed.

Lemma int_of_bounds x : (0 <= x)%Q -> (0 <= inject_Z (int_of x) <= x)%Q.
Proof.
  destruct x as [n d]. unfold Qle, int_of, inject_Z. cbn.
  intros Hn.
  assert (Hpos : 0 <= n) by lia.
  rewrite Z.quot_div_nonneg by lia.
  pose proof (Z.div_pos n (Z.pos d) Hpos ltac:(lia)).
  pose proof (Z.mul_div_le n (Z.pos d) ltac:(lia)).
  split; lia.
Qed.

Lemma accuracy_roll_missed li h g :
  fst (fst (accuracy_roll li h g))
  = negb (fst (compute_luck (fst (aim li h)) g)).
Proof.
  unfold accuracy_roll. destruct (aim li h) as [accuracy h'].
  cbn [fst]. destruct (compute_luck accuracy g). reflexivity.
Qed.

Lemma compute_luck_monotone p q g :
  (p <= q)%Q -> fst (compute_luck p g) = true ->
  fst (compute_luck q g) = true.
Proof.
  intros Hpq. unfold compute_luck, randint. cbn [fst].
  rewrite !Qle_bool_iff. intros. eapply Qle_trans; eassumption.
Qed.

Lemma aim_bounds li h :
  0 <= lv_accuracy li <= 100 ->
  let accuracy := fst (aim li h) in
  (0 <= accuracy <= 100)%Q /\
  (powerup h "mirror" <= 0 -> (inject_Z (lv_accuracy li) <= accuracy)%Q) /\
  (powerup h "sight" <= 0 -> (accuracy <= inject_Z (lv_accuracy li))%Q).
Proof.
  intros Hacc.
  assert (Hq : (0 <= inject_Z (lv_accuracy li) <= 100)%Q).
  { change 0%Q with (inject_Z 0). change 100%Q with (inject_Z 100).
    rewrite <- !Zle_Qle. exact Hacc. }
  assert (Hsight : forall q, (0 <= q <= 100)%Q ->
            (q <= q + inject_Z (int_of ((100 - q) / 3)) <= 100)%Q).
  { intros q Hq'.
    set (t := ((100 - q) / 3)%Q).
    assert (Ht : (t * 3 == 100 - q)%Q) by (unfold t; field).
    assert (H3 : (0 <= t)%Q) by lra.
    pose proof (int_of_bounds _ H3) as [Hlo Hhi]. lra. }
  assert (Hhalf : forall q, (0 <= q <= 100)%Q -> (0 <= q / 2 <= q)%Q).
  { intros q Hq'.
    set (u := (q / 2)%Q).
    assert (Hu : (u * 2 == q)%Q) by (unfold u; field). lra. }
  unfold aim.
  set (a := inject_Z (lv_accuracy li)) in *.
  pose proof (Hhalf a Hq) as Hh.
  assert (Hh100 : (0 <= a / 2 <= 100)%Q) by (destruct Hq, Hh; split; lra).
  pose proof (Hsight a Hq) as Hs1.
  pose proof (Hsight (a / 2)%Q Hh100) as Hs2.
  destruct (0 <? powerup h "mirror") eqn:Hm;
    [rewrite powerup_add_ne by discriminate|];
    destruct (0 <? powerup h "sight") eqn:Hs; eqbs; cbn [fst];
    (split; [split; lra|]); split; intros Hno; try lia; lra.
Qed.

(** X15 ([bang], the accuracy).  For a level accuracy within 0..100 the
    accuracy after mirror and sight stays within 0..100; on the same draw,
    without a mirror a shot misses only if the unaided shot misses, and
    without a sight the unaided miss is a miss. *)
Theorem mirror_and_sight li h g :
  0 <= lv_accuracy li <= 100 ->
  let accuracy := fst (aim li h) in
  let unaided := negb (fst (compute_luck (inject_Z (lv_accuracy li)) g)) in
  let missed := fst (fst (accuracy_roll li h g)) in
  (0 <= accuracy <= 100)%Q /\
  (powerup h "mirror" <= 0 -> missed = true -> unaided = true) /\
  (powerup h "sight" <= 0 -> unaided = true -> missed = true).
Proof.
  intros Hacc accuracy unaided missed.
  destruct (aim_bounds li h Hacc) as (Hbounds & Hup & Hdown).
  subst missed unaided accuracy. cbv zeta in *.
  rewrite accuracy_roll_missed.
  split; [exact Hbounds|]. split.
  - intros Hno. specialize (Hup Hno).
    pose proof (compute_luck_monotone _ _ g Hup) as Hmono.
    destruct (fst (compute_luck (inject_Z (lv_accuracy li)) g));
      [rewrite Hmono by reflexivity; discriminate|reflexivity].
  - intros Hno. specialize (Hdown Hno).
    pose proof (compute_luck_monotone _ _ g Hdown) as Hmono.
    destruct (fst (compute_luck (fst (aim li h)) g));
      [rewrite Hmono by reflexivity; discriminate|reflexivity].
Qed.

End MoreProperties.

(** ** Properties of the support cog *)

Section SupportProperties.

Import Support.

Variable Webhook : Type.
Variable py_int : string -> option Z.
Variable py_str : Z -> string.
Variable forwarding_category : Category.
Variable fetch_user : Z -> option User.
Variable find_channel : string -> option Channel.
Variable create_text_channel : string -> Channel.
Variable create_webhook : Channel -> Webhook.
Variable webhooks : Channel -> list Webhook.
Variable invites_regex_search : string -> bool.
Variable dm_open : User -> bool.

Local Abbreviation Cog := (Support.Cog Webhook).
Local Abbreviation get_user := (Support.get_user Webhook py_int fetch_user).
Local Abbreviation clear_caches := (Support.clear_caches Webhook py_int).
Local Abbreviation block :=
  (Support.block Webhook py_int forwarding_category).
Local Abbreviation get_or_create_channel :=
  (Support.get_or_create_channel Webhook py_str find_channel
     create_text_channel create_webhook webhooks).
Local Abbreviation handle_dm_message :=
  (Support.handle_dm_message Webhook py_str find_channel
     create_text_channel create_webhook webhooks).
Local Abbreviation handle_auto_responses :=
  (Support.handle_auto_responses Webhook py_str find_channel
     create_text_channel create_webhook webhooks invites_regex_search).
Local Abbreviation handle_support_message :=
  (Support.handle_support_message Webhook py_int fetch_user dm_open).
Local Abbreviation close :=
  (Support.close Webhook py_int forwarding_category fetch_user dm_open).
Local Abbreviation close_silent :=
  (Support.close_silent Webhook py_int forwarding_category).
Local Abbreviation on_message :=
  (Support.on_message Webhook py_int py_str forwarding_category fetch_user
     find_channel create_text_channel create_webhook webhooks
     invites_regex_search dm_open).

Ltac run :=
  unfold Support.get_user, Support.clear_caches, Support.block,
    Support.get_or_create_channel, Support.handle_dm_message,
    Support.handle_auto_responses, Support.handle_support_message,
    Support.on_message, Support.is_in_forwarding_channels,
    Support.close_silent, Support.close, Support.pop_user, Support.pop_webhook,
    Support.except_pass, Support.int, Support.bind, Support.get,
    Support.put, Support.emit, Support.ret, Support.raise in *.

(** X16 ([get_user]).  A user is fetched from Discord at most once: the
    first lookup of a numeric name fetches and caches, every later one
    answers from the cache without a call; a failed fetch caches nothing.
    Neither the webhooks nor the block list are touched. *)
Theorem get_user_caches name n (s : Cog) :
  py_int name = Some n ->
  let '(r, s1, ev) := get_user name s in
  webhook_cache _ s1 = webhook_cache _ s /\
  blocked_ids _ s1 = blocked_ids _ s /\
  match r with
  | Ok u =>
      users_cache _ s1 !! n = Some u /\
      get_user name s1 = (Ok u, s1, []) /\
      (users_cache _ s !! n = Some u /\ s1 = s /\ ev = [] \/
       users_cache _ s !! n = None /\ fetch_user n = Some u /\
       ev = [FetchUser _ n] /\
       users_cache _ s1 = <[n := u]> (users_cache _ s))
  | Raise e =>
      e = NotFound /\ s1 = s /\ ev = [FetchUser _ n] /\
      users_cache _ s !! n = None
  end.
Proof.
  intros Hint. run. rewrite Hint.
  destruct (users_cache _ s !! n) as [u|] eqn:Hcache; cbn.
  - rewrite ?Hcache. cbn. rewrite ?Hcache. auto 10.
  - rewrite ?Hcache. cbn.
    destruct (fetch_user n) as [u|] eqn:Hfetch; cbn.
    + rewrite ?lookup_insert_eq. cbn. rewrite ?lookup_insert_eq.
      repeat split; auto 10.
    + auto 10.
Qed.

(** X17 ([clear_caches]).  Clearing a channel's caches removes its user and
    its webhook whether or not they were cached (the [KeyError]s are passed
    over), calls nothing, and can be repeated; but a channel whose name is
    not a number raises [ValueError] before anything is removed, the webhook
    included. *)
Theorem clear_caches_forgets ch (s : Cog) :
  let '(r, s1, ev) := clear_caches ch s in
  ev = [] /\ blocked_ids _ s1 = blocked_ids _ s /\
  match py_int (channel_name ch) with
  | Some n =>
      r = Ok tt /\
      users_cache _ s1 = delete n (users_cache _ s) /\
      webhook_cache _ s1 = delete (channel_id ch) (webhook_cache _ s) /\
      clear_caches ch s1 = (Ok tt, s1, [])
  | None => r = Raise ValueError /\ s1 = s
  end.
Proof.
  run. destruct (py_int (channel_name ch)) as [n|]; cbn; [|auto].
  destruct (users_cache _ s !! n) eqn:Hu; cbn;
    destruct (webhook_cache _ s !! channel_id ch) eqn:Hw; cbn;
    rewrite ?lookup_delete_eq, ?Hu, ?Hw; cbn;
    rewrite ?lookup_delete_eq, ?Hu, ?Hw; cbn;
    repeat split; auto;
    try (symmetry; now apply delete_id).
  all: destruct s; reflexivity.
Qed.

Lemma handle_dm_message_blocked message (s : Cog) :
  user_id (author message) ∈ blocked_ids _ s ->
  handle_dm_message message s = (Ok tt, s, []).
Proof.
  intros Hin. unfold Support.handle_dm_message, Support.bind, Support.get.
  now rewrite bool_decide_eq_true_2.
Qed.

Lemma on_message_blocked message (s : Cog) :
  author_bot message = false -> is_command message = false ->
  guild message = None ->
  user_id (author message) ∈ blocked_ids _ s ->
  on_message message s = handle_auto_responses message s.
Proof.
  intros Hbot Hcmd Hguild Hin. unfold Support.on_message.
  rewrite Hbot, Hcmd, Hguild. unfold Support.bind at 1.
  rewrite handle_dm_message_blocked by exact Hin.
  destruct (handle_auto_responses message s) as [[r s1] ev]. reflexivity.
Qed.

(** X18 ([block], [handle_dm_message], [on_message]).  [block] only runs in
    the forwarding category of the support guild, and otherwise raises the
    check's error with nothing changed.  When it runs, the channel's number
    is appended to the block list and the caches are kept; from then on a
    private message of that user is dropped by [handle_dm_message] with no
    call and no state change, and [on_message] is left with the automatic
    responses alone. *)
Theorem block_silences_dm ctx n (s : Cog) :
  py_int (channel_name (ctx_channel ctx)) = Some n ->
  let '(r, s1, ev) := block ctx s in
  webhook_cache _ s1 = webhook_cache _ s /\
  users_cache _ s1 = users_cache _ s /\
  match r with
  | Ok _ =>
      ctx_guild ctx = Some (category_guild forwarding_category) /\
      channel_category (ctx_channel ctx)
        = Some (category_id forwarding_category) /\
      blocked_ids _ s1 = blocked_ids _ s ++ [n] /\
      ev = [CtxSendOk _] /\
      (forall message,
         n = user_id (author message) ->
         handle_dm_message message s1 = (Ok tt, s1, [])) /\
      (forall message,
         n = user_id (author message) ->
         author_bot message = false -> is_command message = false ->
         guild message = None ->
         on_message message s1 = handle_auto_responses message s1)
  | Raise e =>
      s1 = s /\ ev = [] /\
      e = match ctx_guild ctx with
          | None => NoPrivateMessage
          | Some guild_id =>
              if guild_id =? category_guild forwarding_category
              then NotInChannel (category_id forwarding_category)
              else NotInServer (category_guild forwarding_category)
          end
  end.
Proof.
  intros Hint.
  unfold Support.block, Support.is_in_forwarding_channels, Support.int,
    Support.bind, Support.get, Support.put, Support.emit, Support.ret,
    Support.raise.
  destruct (ctx_guild ctx) as [guild_id|]; cbn; [|auto].
  destruct (Z.eqb_spec guild_id (category_guild forwarding_category));
    cbn; [|auto].
  destruct (bool_decide_reflect
              (channel_category (ctx_channel ctx)
               = Some (category_id forwarding_category))); cbn; [|auto].
  rewrite Hint. cbn.
  assert (Hin : n ∈ blocked_ids _ s ++ [n])
    by (apply elem_of_app; right; now apply list_elem_of_singleton).
  do 6 (split; [congruence|]). split.
  - intros message ->.
    exact (handle_dm_message_blocked message
             (Support.mkCog _ (webhook_cache _ s) (users_cache _ s)
                (blocked_ids _ s ++ [user_id (author message)])) Hin).
  - intros message -> Hbot Hcmd Hguild.
    exact (on_message_blocked message
             (Support.mkCog _ (webhook_cache _ s) (users_cache _ s)
                (blocked_ids _ s ++ [user_id (author message)]))
             Hbot Hcmd Hguild Hin).
Qed.

(** X19 ([get_or_create_channel]).  A channel that is returned always has
    its webhook in the cache.  A known channel with a cached webhook costs no
    call; a missing channel is created with its webhook and the ticket is
    opened, in that order; with Discord answering, the only failure is an
    existing channel that has no webhook at all ([IndexError]), which leaves
    the state as it was. *)
Theorem get_or_create_channel_caches_webhook user (s : Cog) :
  let '(r, s1, ev) := get_or_create_channel user s in
  users_cache _ s1 = users_cache _ s /\
  blocked_ids _ s1 = blocked_ids _ s /\
  match r with
  | Ok ch =>
      is_Some (webhook_cache _ s1 !! channel_id ch) /\
      (is_Some (find_channel (py_str (user_id user))) ->
       is_Some (webhook_cache _ s !! channel_id ch) ->
       s1 = s /\ ev = []) /\
      (find_channel (py_str (user_id user)) = None ->
       ch = create_text_channel (py_str (user_id user)) /\
       ev = [CreateTextChannel _ (py_str (user_id user));
             CreateWebhook _ (channel_id ch);
             TicketOpening _ (channel_id ch) (user_id user)])
  | Raise e =>
      e = IndexError /\ s1 = s /\
      exists ch, find_channel (py_str (user_id user)) = Some ch /\
                 webhook_cache _ s !! channel_id ch = None /\
                 webhooks ch = [] /\ ev = [ListWebhooks _ (channel_id ch)]
  end.
Proof.
  run.
  destruct (find_channel (py_str (user_id user))) as [ch|] eqn:Hfind; cbn.
  - destruct (webhook_cache _ s !! channel_id ch) as [w|] eqn:Hw; cbn.
    + rewrite Hw. split; [reflexivity|]. split; [reflexivity|].
      split; [eauto|]. split; [auto|discriminate].
    + destruct (webhooks ch) as [|w ws] eqn:Hhooks; cbn.
      * split; [reflexivity|]. split; [reflexivity|].
        split; [reflexivity|]. split; [reflexivity|]. eauto 10.
      * rewrite lookup_insert_eq.
        split; [reflexivity|]. split; [reflexivity|].
        split; [eauto|]. split; [|discriminate].
        intros _ [? Hsome]. rewrite Hw in Hsome. discriminate.
  - rewrite lookup_insert_eq.
    split; [reflexivity|]. split; [reflexivity|].
    split; [eauto|]. split; [|auto].
    intros [? ?]; discriminate.
Qed.

Lemma channel_webhook_cached user (s : Cog) :
  let '(r, s1, ev) := get_or_create_channel user s in
  users_cache _ s1 = users_cache _ s /\
  blocked_ids _ s1 = blocked_ids _ s /\
  match r with
  | Ok ch => is_Some (webhook_cache _ s1 !! channel_id ch)
  | Raise e => e = IndexError
  end.
Proof.
  run.
  destruct (find_channel (py_str (user_id user))) as [ch|]; cbn.
  - destruct (webhook_cache _ s !! channel_id ch) as [w|] eqn:Hw; cbn.
    + rewrite Hw. eauto.
    + destruct (webhooks ch) as [|w ws]; cbn; [auto|].
      rewrite lookup_insert_eq. eauto.
  - rewrite lookup_insert_eq. eauto.
Qed.

(** X20 ([handle_dm_message]).  The read of [webhook_cache] never raises
    [KeyError]: the channel comes from [get_or_create_channel].  A message
    that goes through is sent, last, on the webhook cached for that channel;
    a blocked author causes nothing. *)
Theorem handle_dm_message_finds_webhook message (s : Cog) :
  let '(r, s1, ev) := handle_dm_message message s in
  r <> Raise KeyError /\
  users_cache _ s1 = users_cache _ s /\
  blocked_ids _ s1 = blocked_ids _ s /\
  (user_id (author message) ∈ blocked_ids _ s -> s1 = s /\ ev = []) /\
  (r = Ok tt -> user_id (author message) ∉ blocked_ids _ s ->
   exists ev0 ch w,
     get_or_create_channel (author message) s = (Ok ch, s1, ev0) /\
     webhook_cache _ s1 !! channel_id ch = Some w /\
     ev = ev0 ++ [WebhookSend _ w (content message)]).
Proof.
  pose proof (channel_webhook_cached (author message) s) as Hch.
  unfold Support.handle_dm_message, Support.bind, Support.get at 1,
    Support.ret.
  destruct (bool_decide_reflect
              (user_id (author message) ∈ blocked_ids _ s)) as [Hin|Hout].
  - cbn. repeat split; try discriminate; auto. intros _ Hno. contradiction.
  - destruct (get_or_create_channel (author message) s)
      as [[[ch|e] s1] ev0]; cbn.
    + destruct Hch as (Hu & Hb & [w Hw]).
      unfold Support.get, Support.emit, Support.raise. rewrite Hw. cbn.
      repeat split; try discriminate; auto; try contradiction.
      intros _ _. exists ev0, ch, w. rewrite ?app_nil_r. auto.
    + destruct Hch as (Hu & Hb & ->).
      repeat split; try discriminate; auto; contradiction.
Qed.







End SupportProperties.

Lemma attach_all (urls : list string)
  (fs : list (Support.FieldName * string)) :
  fold_left (fun fs url => fs ++ [(Support.Attached, url)]) urls fs
  = fs ++ map (fun url => (Support.Attached, url)) urls.
Proof.
  revert fs. induction urls as [|url urls IH]; intros fs; cbn.
  - now rewrite app_nil_r.
  - rewrite IH, <- app_assoc. reflexivity.
Qed.

(** X23 ([handle_support_message]).  The embed sent to the user carries the
    message's text and every attachment, in order, as its image or as
    "Attached" fields; an image is only set for a single attachment and
    never from a NSFW channel; the note on the persistance of attachments
    is there exactly when there are two attachments or more. *)
Theorem support_embed_keeps_attachments message :
  let e := Support.support_embed message in
  Support.description e = Support.content message /\
  attached_urls e = Support.attachments message /\
  (Support.channel_nsfw (Support.channel message) = true ->
   Support.image e = None) /\
  (is_Some (Support.image e) ->
   length (Support.attachments message) = 1%nat) /\
  ((Support.AttachmentsPersistance, "") ∈ Support.fields e <->
   (2 <= length (Support.attachments message))%nat).
Proof.
  unfold Support.support_embed, attached_urls.
  destruct (Support.attachments message) as [|url [|url2 urls]] eqn:Hatt.
  - cbn. repeat split; try discriminate; try lia.
    + intros [? ?]; discriminate.
    + intros Hin. apply elem_of_nil in Hin. contradiction.
  - destruct (Support.channel_nsfw (Support.channel message)) eqn:Hnsfw;
      cbn [negb andb];
      [|destruct (Support.endswith url ".webp" || Support.endswith url ".png"
                  || Support.endswith url ".jpg")];
      cbn; repeat split; try discriminate; try lia; auto;
      try (intros [? ?]; discriminate);
      intros Hin; repeat (apply elem_of_cons in Hin as [Hin|Hin]);
      try discriminate Hin; try (apply elem_of_nil in Hin; contradiction).
  - rewrite attach_all.
    cbn [Support.description Support.image Support.fields app].
    assert (Hall : forall l,
              omap (fun f : Support.FieldName * string =>
                      match f with
                      | (Support.Attached, u) => Some u
                      | _ => None
                      end) (map (fun u => (Support.Attached, u)) l) = l).
    { induction l as [|a l IHl]; cbn; [reflexivity|]. now rewrite IHl. }
    split; [reflexivity|]. split.
    { rewrite omap_app, Hall. cbn. now rewrite app_nil_r. }
    split; [reflexivity|]. split; [intros [? ?]; discriminate|].
    split; [cbn; lia|]. intros _.
    apply elem_of_app. right. now apply list_elem_of_singleton.
Qed.

(** ** The further properties on the small configurations *)

Lemma store_ok_singleton k p : row_ok p -> store_ok {[ k := p ]}.
Proof. intros Hp. unfold store_ok. now apply map_Forall_singleton. Qed.

Lemma revive_clears_all_deaths_witness :
  let '(reply, db') :=
    Hunting.revive example_new_player (example_ctx 1) dead_db in
  reply = Revived 2 /\ powerup (example_row (example_ctx 1) db') "dead" = 0.
Proof.
  pose proof (revive_clears_all_deaths example_new_player
                example_new_player_id (example_ctx 1) dead_db
                (store_wf_singleton _) ltac:(vm_compute; discriminate)) as H.
  unfold example_row, Hunting.persisted.
  destruct (Hunting.revive _ _ _) as [reply db'].
  destruct H as (Hreply & Hdead & _).
  split; [exact Hreply | exact Hdead].
Defined.

Lemma hug_only_counts_witness :
  let '(reply, db') :=
    Hunting.hug example_new_player (example_ctx 1) (Some 2) lone_db in
  reply = HuggedPlayer 2 /\ db' !! 2 = None.
Proof.
  pose proof (hug_only_counts example_new_player example_new_player_id
                (example_ctx 1) (Some 2) lone_db (store_wf_singleton _))
    as H.
  destruct (Hunting.hug _ _ _ _) as [reply db'].
  destruct H as (_ & _ & Hother & _ & Hreply).
  split.
  - apply Hreply; [reflexivity | vm_compute; discriminate].
  - apply (Hother 2). discriminate.
Defined.

Lemma reload_effects_witness :
  let '(reply, returned, db') := example_reload (example_ctx 1) jammed_db in
  weapon_jammed (example_row (example_ctx 1) db') = false /\
  store_wf db'.
Proof.
  pose proof (reload_effects example_level_info example_new_player
                example_new_player_id (example_ctx 1) jammed_db
                (store_wf_singleton _)) as H.
  unfold example_reload, example_row, Hunting.persisted.
  destruct (Hunting.reload _ _ _ _) as [[reply returned] db'].
  destruct H as (_ & _ & _ & _ & _ & Hjammed & _ & _ & Hwf & _).
  split; [exact Hjammed | exact Hwf].
Defined.

Lemma jammed_reload_takes_two_witness :
  let '(reply1, _, db1) := example_reload (example_ctx 1) jammed_db in
  let '(reply2, _, db2) := example_reload (example_ctx 1) db1 in
  reply1 = Unjammed /\ reply2 = Reloaded /\
  bullets (example_row (example_ctx 1) db2) = 6 /\
  magazines (example_row (example_ctx 1) db2) = 2 - 1.
Proof.
  pose proof (jammed_reload_takes_two example_level_info example_new_player
                example_new_player_id (example_ctx 1) jammed_db
                (store_wf_singleton _) eq_refl eq_refl
                ltac:(vm_compute; discriminate)
                ltac:(vm_compute; discriminate)) as H.
  unfold example_reload, example_row, Hunting.persisted.
  destruct (Hunting.reload _ _ _ jammed_db) as [[reply1 returned1] db1].
  destruct (Hunting.reload _ _ _ db1) as [[reply2 returned2] db2].
  destruct H as (H1 & _ & _ & H2 & Hbullets & Hmagazines & _).
  repeat split; assumption.
Defined.

Lemma bang_shooter_row_witness :
  let r := example_bang (example_ctx 1) (Some 2) (tape [0; 0]) lone_db in
  experience (example_row (example_ctx 1) (store r))
    = 0 - experience_lost (outcome r) /\
  bullets (example_row (example_ctx 1) (store r))
    = 1 - bullets_spent (outcome r).
Proof.
  destruct (bang_shooter_row example_level_info example_powerup_active
              example_new_player example_new_player_id (example_ctx 1)
              (Some 2) (tape [0; 0]) lone_db (store_wf_singleton _))
    as (Hexperience & Hbullets & _).
  split; [exact Hexperience | exact Hbullets].
Defined.

Lemma bang_powerups_witness :
  let r := example_bang (example_ctx 1) (Some 2) (tape [0; 0]) homing_db in
  spent_at_most_one 2
    (powerup (example_row (example_ctx 1) (store r)) "homing_bullets") /\
  powerup (example_row (example_ctx 1) (store r)) "grease" = 0.
Proof.
  destruct (bang_powerups example_level_info example_powerup_active
              example_new_player example_new_player_id (example_ctx 1)
              (Some 2) (tape [0; 0]) homing_db (store_wf_singleton _))
    as (_ & _ & _ & Hhoming & _ & _ & Hother).
  split; [exact Hhoming | apply (Hother "grease"); discriminate].
Defined.

Lemma bang_draws_witness :
  let blocked := example_bang (example_ctx 1) None (tape [7]) dead_db in
  let named := example_bang (example_ctx 1) (Some 2) (tape [0; 0]) lone_db in
  rng blocked = tape [7] /\ (cursor (rng named) <= 0 + 3)%nat.
Proof.
  intros blocked named. split.
  - destruct (bang_draws example_level_info example_powerup_active
                example_new_player (example_ctx 1) None (tape [7]) dead_db)
      as (_ & _ & Hblocked & _).
    apply Hblocked. reflexivity.
  - destruct (bang_draws example_level_info example_powerup_active
                example_new_player (example_ctx 1) (Some 2) (tape [0; 0])
                lone_db)
      as (_ & _ & _ & _ & _ & _ & Hnamed).
    apply Hnamed. eexists. reflexivity.
Defined.

Lemma bang_writes_two_rows_witness :
  let r := example_bang (example_ctx 1) (Some 2) (tape [0; 0]) lone_db in
  store r !! 3 = None /\
  Hunting.get_player example_new_player (store r) 2
    = mark_killed (example_new_player 2).
Proof.
  destruct (bang_writes_two_rows example_level_info example_powerup_active
              example_new_player example_new_player_id (example_ctx 1)
              (Some 2) (tape [0; 0]) lone_db (store_wf_singleton _))
    as (_ & Hother & Hvictim).
  split.
  - apply (Hother 3); vm_compute; discriminate.
  - apply (Hvictim 2); [reflexivity | discriminate].
Defined.

Lemma blocked_attempt_counts_once_witness :
  let r := example_bang (example_ctx 1) None (tape [7]) dead_db in
  example_row (example_ctx 1) (store r)
    = stat_add "shots_when_dead" 1 (example_row (example_ctx 1) dead_db).
Proof.
  destruct (blocked_attempt_counts_once example_level_info
              example_powerup_active example_new_player
              example_new_player_id (example_ctx 1) None (tape [7]) dead_db
              (store_wf_singleton _) eq_refl eq_refl)
    as (Hrow & _).
  exact Hrow.
Defined.

Lemma commands_keep_rows_ok_witness :
  store_ok
    (store (example_bang (example_ctx 1) (Some 2) (tape [0; 0]) lone_db)).
Proof.
  assert (Hnew : forall member, row_ok (example_new_player member))
    by (intros member; vm_compute; repeat split; discriminate).
  refine (proj1 (commands_keep_rows_ok example_level_info
                   example_powerup_active example_new_player (example_ctx 1)
                   (Some 2) (tape [0; 0]) lone_db _ Hnew _)).
  - apply store_ok_singleton. vm_compute. repeat split; discriminate.
  - intros xp. vm_compute. discriminate.
Defined.

Lemma jam_then_reload_witness :
  let r := example_bang (example_ctx 1) None (tape [99; 99]) lone_db in
  outcome r = JamRollFailed /\
  outcome (example_bang (example_ctx 1) (Some 2) (tape [0; 0]) (store r))
    = WeaponJammed.
Proof.
  assert (Hjam :
    outcome (example_bang (example_ctx 1) None (tape [99; 99]) lone_db)
    = JamRollFailed) by (vm_compute; reflexivity).
  destruct (jam_then_reload example_level_info example_powerup_active
              example_new_player example_new_player_id (example_ctx 1)
              None (tape [99; 99]) lone_db (store_wf_singleton _)
              Hjam (example_ctx 1) (Some 2) (tape [0; 0])
              eq_refl eq_refl ltac:(apply Z.le_refl)) as [Hjammed _].
  split; [exact Hjam | exact Hjammed].
Defined.

Lemma revive_keeps_confiscation_witness :
  let r := example_bang (example_ctx 1) (Some 1) (tape [0; 0]) lone_db in
  outcome (example_bang (example_ctx 1) None (tape [0]) (store r))
    = ShooterDead.
Proof.
  assert (Hself :
    outcome (example_bang (example_ctx 1) (Some 1) (tape [0; 0]) lone_db)
    = Suicide) by (vm_compute; reflexivity).
  destruct (revive_keeps_confiscation example_level_info
              example_powerup_active example_new_player
              example_new_player_id (example_ctx 1) (Some 1)
              (tape [0; 0]) lone_db (store_wf_singleton _)
              ltac:(vm_compute; discriminate)
              (or_introl Hself) (example_ctx 1) None (tape [0])
              eq_refl eq_refl ltac:(apply Z.le_refl)) as [Hdead _].
  exact Hdead.
Defined.

Lemma grease_helps_sand_hurts_witness :
  snd (fst (Hunting.jam_roll example_powerup_active (example_level_info 0)
              sandy_hunter (tape [99; 0])))
    = powerup_add "sand" (-1) sandy_hunter /\
  snd (fst (Hunting.jam_roll example_powerup_active (example_level_info 0)
              greased_hunter (tape [99; 0])))
    = greased_hunter.
Proof.
  destruct (grease_helps_sand_hurts example_powerup_active
              (example_level_info 0) greased_hunter lone_hunter sandy_hunter
              (tape [99; 0]) eq_refl eq_refl
              ltac:(vm_compute; discriminate) eq_refl eq_refl)
    as (_ & _ & Hgrease & _ & Hsand).
  split; [exact Hsand | exact Hgrease].
Defined.

Lemma mirror_and_sight_witness :
  (0 <= fst (aim (example_level_info 0)
               (example_row (example_ctx 1) homing_db)) <= 100)%Q.
Proof.
  refine (proj1 (mirror_and_sight (example_level_info 0)
                   (example_row (example_ctx 1) homing_db) (tape [0]) _)).
  cbn. lia.
Defined.

Lemma get_user_caches_witness :
  let '(r, s1, ev) :=
    Support.get_user Z example_int example_fetch_user "42" empty_cog in
  Support.webhook_cache Z s1 = ∅ /\ Support.blocked_ids Z s1 = [].
Proof.
  pose proof (get_user_caches Z example_int example_fetch_user "42" 42
                empty_cog eq_refl) as H.
  destruct (Support.get_user _ _ _ _ _) as [[r s1] ev].
  destruct H as (Hwebhooks & Hblocked & _).
  split; [exact Hwebhooks | exact Hblocked].
Defined.

Lemma block_silences_dm_witness :
  let '(r, s1, ev) :=
    Support.block Z example_int example_category ticket_ctx empty_cog in
  Support.users_cache Z s1 = ∅.
Proof.
  pose proof (block_silences_dm Z example_int example_str example_category
                example_fetch_user example_find_channel
                example_create_text_channel example_create_webhook
                example_webhooks example_invites example_dm_open
                ticket_ctx 42 empty_cog eq_refl) as H.
  destruct (Support.block _ _ _ _ _) as [[r s1] ev].
  destruct H as (_ & Husers & _).
  exact Husers.
Defined.

Lemma get_or_create_channel_caches_webhook_witness :
  let '(r, s1, ev) :=
    Support.get_or_create_channel Z example_str example_find_channel
      example_create_text_channel example_create_webhook example_webhooks
      (Support.mkUser 42 "hunter") empty_cog in
  r = Support.Ok ticket_channel /\
  ev = [Support.CreateTextChannel Z "42"; Support.CreateWebhook Z 100;
        Support.TicketOpening Z 100 42].
Proof.
  pose proof (get_or_create_channel_caches_webhook Z example_str
                example_find_channel example_create_text_channel
                example_create_webhook example_webhooks
                (Support.mkUser 42 "hunter") empty_cog) as H.
  destruct (Support.get_or_create_channel _ _ _ _ _ _ _ _) as [[r s1] ev].
  destruct H as (_ & _ & H).
  destruct r as [ch|e].
  - destruct H as (_ & _ & Hnew).
    destruct (Hnew eq_refl) as [-> ->]. split; reflexivity.
  - destruct H as (_ & _ & ch & Hfound & _). discriminate Hfound.
Defined.

Lemma handle_dm_message_finds_webhook_witness :
  let '(r, s1, ev) :=
    Support.handle_dm_message Z example_str example_find_channel
      example_create_text_channel example_create_webhook example_webhooks
      example_dm (Support.mkCog Z ∅ ∅ [42]) in
  s1 = Support.mkCog Z ∅ ∅ [42] /\ ev = [].
Proof.
  pose proof (handle_dm_message_finds_webhook Z example_str
                example_find_channel example_create_text_channel
                example_create_webhook example_webhooks example_dm
                (Support.mkCog Z ∅ ∅ [42])) as H.
  destruct (Support.handle_dm_message _ _ _ _ _ _ _ _) as [[r s1] ev].
  destruct H as (_ & _ & _ & Hblocked & _).
  apply Hblocked. cbn. apply list_elem_of_singleton. reflexivity.
Defined.



Lemma support_embed_keeps_attachments_witness :
  (Support.AttachmentsPersistance, "")
    ∈ Support.fields (Support.support_embed example_answer).
Proof.
  destruct (support_embed_keeps_attachments example_answer)
    as (_ & _ & _ & _ & Hnote).
  apply Hnote. cbn. lia.
Defined.
